(** * scriptAsist.py: attendance reconciliation

    A shallow embedding of [src/scriptAsist.py] and the properties of its
    name normalizer, fuzzy name matcher, duration conversion and
    reconciliation loop.

    Conventions of the embedding.
    - A Python [str] is the list of its code points ([pystr]).
    - A raised exception is a value of [result]; the functions that can
      raise return [result A].
    - A [dict] is an association list in insertion order with one entry
      per key ([dict_set] overwrites in place or appends), because the
      matcher iterates over [dict.keys()] and breaks ties by that order.
    - What the Python runtime supplies and the repository does not define
      is an interface: the upper-case table above U+00FF ([Unicode]) and
      the [float] type with its operations ([PyFloat]). *)

From Stdlib Require Import PrimFloat SpecFloat FloatOps.
From Stdlib Require Import ZArith NArith QArith Lqa Lia String Ascii.
From stdpp Require Import base list gmap sets.
From Stdlib Require Import Sorted.

(** A decimal float literal stands for the binary64 nearest to it, as in
    Python. *)
Set Warnings "-inexact-float".

Local Open Scope N_scope.

(** ** Strings *)

Definition pystr : Type := list N.

(** A literal of ASCII text as a [pystr]. *)
Definition py (s : string) : pystr :=
  List.map N_of_ascii (list_ascii_of_string s).

(** ** Exceptions *)

Inductive exn : Type :=
  | ZeroDivisionError
  | ValueError
  | KeyError.

Inductive result (A : Type) : Type :=
  | Ok (a : A)
  | Raise (e : exn).
Arguments Ok {A} a.
Arguments Raise {A} e.

#[global] Instance result_ret : MRet result := λ A a, Ok a.
#[global] Instance result_bind : MBind result := λ A B f r,
  match r with
  | Ok a => f a
  | Raise e => Raise e
  end.

(** ** Whitespace, as [str.strip()], [str.split()] and the regex class
    [\s] of a [str] pattern all read it (the interpreter's
    [Py_UNICODE_ISSPACE]). *)

Definition isspace (c : N) : bool :=
  ((9 <=? c) && (c <=? 13)) || ((28 <=? c) && (c <=? 32))
  || (c =? 133) || (c =? 160) || (c =? 5760)
  || ((8192 <=? c) && (c <=? 8202))
  || (c =? 8232) || (c =? 8233) || (c =? 8239) || (c =? 8287)
  || (c =? 12288).

(** The text without the leading code points that [blank] accepts. *)
Fixpoint lstrip_of (blank : N → bool) (s : pystr) : pystr :=
  match s with
  | [] => []
  | c :: s' => if blank c then lstrip_of blank s' else s
  end.

Definition strip_of (blank : N → bool) (s : pystr) : pystr :=
  reverse (lstrip_of blank (reverse (lstrip_of blank s))).

(** [s.strip()] *)
Definition strip (s : pystr) : pystr := strip_of isspace s.

(** ** Upper case *)

(** The full upper-case mapping of the code points above U+00FF: the part
    of the Unicode tables this development does not spell out. *)
Class Unicode : Type := { upper_ext : N → list N }.

(** The full upper-case mapping of U+0000..U+00FF: a-z, the micro sign
    (to GREEK CAPITAL MU), sharp s (to SS), the accented small letters
    U+00E0..U+00FE but the division sign, and y with diaeresis (to
    U+0178); every other code point maps to itself. *)
Definition upper_latin1 (c : N) : list N :=
  if (97 <=? c) && (c <=? 122) then [c - 32]
  else if c =? 181 then [924]
  else if c =? 223 then [83; 83]
  else if (224 <=? c) && (c <=? 254) && negb (c =? 247) then [c - 32]
  else if c =? 255 then [376]
  else [c].

Definition upper_cp `{Unicode} (c : N) : list N :=
  if c <? 256 then upper_latin1 c else upper_ext c.

(** [s.upper()]: every code point replaced by its full upper-case mapping. *)
Definition upper `{Unicode} (s : pystr) : pystr := flat_map upper_cp s.

(** ** normalize_name *)

Definition SPACE : N := 32.

(** [re.sub(r'\s+', ' ', s)]: every maximal run of whitespace becomes one
    space. [in_run] says that the previous code point was whitespace. *)
Fixpoint sub_spaces (in_run : bool) (s : pystr) : pystr :=
  match s with
  | [] => []
  | c :: s' =>
      if isspace c
      then (if in_run then sub_spaces true s' else SPACE :: sub_spaces true s')
      else c :: sub_spaces false s'
  end.

(** The character class of the second substitution: period, comma,
    semicolon, colon, apostrophe and double quote. *)
Definition is_special (c : N) : bool :=
  (c =? 46) || (c =? 44) || (c =? 59) || (c =? 58) || (c =? 39) || (c =? 34).

(** The second [re.sub]: every code point of that class is deleted. *)
Definition sub_special (s : pystr) : pystr :=
  List.filter (λ c, negb (is_special c)) s.

(** [normalize_name(name)]; [None] is Python's [None]. *)
Definition normalize_name `{Unicode} (name : option pystr) : pystr :=
  match name with
  | None | Some [] => []
  | Some name =>
      let name := upper (strip name) in
      let name := sub_spaces false name in
      let name := sub_special name in
      name
  end.

(** ** Floats

    The interpreter's [float]: the type, the constructor [float(s)] on a
    [str] ([None] when it raises [ValueError]), the literal [0.0], the
    conversion of an [int] operand, and the operators [+], [/] and [>=].
    The program never divides a float by zero, so [fdiv] is total here. *)
Class PyFloat : Type := {
  float : Type;
  float_of_str : pystr → option float;
  fzero : float;
  float_of_int : Z → float;
  fadd : float → float → float;
  fdiv : float → float → float;
  fge : float → float → bool;
}.

(** ** convert_duration_to_hours *)

(** [s.split(sep)] for a separator of one code point: the pieces between
    the separators, empty pieces kept. *)
Fixpoint split_on (sep : N) (s : pystr) : list pystr :=
  match s with
  | [] => [[]]
  | c :: s' =>
      if c =? sep then [] :: split_on sep s'
      else match split_on sep s' with
           | w :: ws => (c :: w) :: ws
           | [] => [[c]]
           end
  end.

(** [s.startswith(p)] *)
Fixpoint startswith (s p : pystr) : bool :=
  match p, s with
  | [], _ => true
  | _ :: _, [] => false
  | a :: p', b :: s' => (a =? b) && startswith s' p'
  end.

(** [sub in s] on strings: [sub] occurs in [s] as a substring. *)
Fixpoint contains (s sub : pystr) : bool :=
  startswith s sub
  || match s with
     | [] => false
     | _ :: s' => contains s' sub
     end.

(** [float(s)] as a statement: the value, or [ValueError]. *)
Definition to_float `{PyFloat} (s : pystr) : result float :=
  match float_of_str s with
  | Some x => Ok x
  | None => Raise ValueError
  end.

(** [convert_duration_to_hours(duration_str)]; [None] stands for a value
    [pd.isna] accepts. *)
Definition convert_duration_to_hours `{PyFloat}
    (duration_str : option pystr) : result float :=
  match duration_str with
  | None => Ok fzero
  | Some duration_str =>
      let parts := split_on SPACE duration_str in
      hours ←
        (if bool_decide (2 ≤ length parts)%nat
            && contains (parts !!! 1%nat) (py "h")
         then to_float (parts !!! 0%nat)
         else Ok fzero);
      minutes ←
        (if bool_decide (4 ≤ length parts)%nat
            && contains (parts !!! 3%nat) (py "min")
         then to_float (parts !!! 2%nat)
         else Ok fzero);
      Ok (fadd hours (fdiv minutes (float_of_int 60)))
  end.

(** ** find_matching_name *)

(** [s.split()]: the maximal runs of non-whitespace. [cur] is the word
    being read, last code point first. *)
Fixpoint split_ws (cur : pystr) (s : pystr) : list pystr :=
  match s with
  | [] => match cur with [] => [] | _ => [reverse cur] end
  | c :: s' =>
      if isspace c
      then match cur with
           | [] => split_ws [] s'
           | _ => reverse cur :: split_ws [] s'
           end
      else split_ws (c :: cur) s'
  end.

Definition split (s : pystr) : list pystr := split_ws [] s.

(** [set(s.split())] *)
Definition words (s : pystr) : gset pystr := list_to_set (split s).

(** [a > b] on scores. *)
Definition Qgt_bool (a b : Q) : bool := negb (Qle_bool a b).

(** [len(common_words) / max(len(target_words), len(name_words))].
    The quotient of two [int]s is a float; it is kept here as the exact
    rational. Two such quotients with denominators below [2^26] compare
    (with each other and with [0.5]) as their roundings to binary64 do,
    so the comparisons of the loop are those of the program for any
    names of fewer than [2^26] words. *)
Definition score (target_words name_words : gset pystr) : result Q :=
  let common_words := target_words ∩ name_words in
  let d := (size target_words `max` size name_words)%nat in
  match d with
  | O => Raise ZeroDivisionError
  | _ => Ok (inject_Z (Z.of_nat (size common_words)) / inject_Z (Z.of_nat d))%Q
  end.

(** The [for name in name_list] loop, from the state
    [(best_match, best_score)]. *)
Fixpoint find_loop (target_words : gset pystr) (name_list : list pystr)
    (best_match : option pystr) (best_score : Q) : result (option pystr) :=
  match name_list with
  | [] => Ok best_match
  | name :: rest =>
      sc ← score target_words (words name);
      if Qgt_bool sc best_score && Qgt_bool sc (1 # 2)
      then find_loop target_words rest (Some name) sc
      else find_loop target_words rest best_match best_score
  end.

(** [find_matching_name(target_name, name_list)]: [Ok None] is the
    returned [None]. [name_list] is the sequence the caller's
    [dict.keys()] iterates over. *)
Definition find_matching_name (target_name : pystr) (name_list : list pystr)
    : result (option pystr) :=
  match target_name with
  | [] => Ok None
  | _ =>
      if bool_decide (target_name ∈ name_list) then Ok (Some target_name)
      else find_loop (words target_name) name_list None 0%Q
  end.

(** ** Dictionaries *)

Definition dict (V : Type) : Type := list (pystr * V).

(** [d[k] = v]: the entry of [k] is overwritten where it stands, a new key
    is appended. *)
Fixpoint dict_set {V : Type} (d : dict V) (k : pystr) (v : V) : dict V :=
  match d with
  | [] => [(k, v)]
  | (k', v') :: d' =>
      if decide (k' = k) then (k', v) :: d' else (k', v') :: dict_set d' k v
  end.

(** [d[k]]; [None] is [KeyError]. *)
Fixpoint dict_get {V : Type} (d : dict V) (k : pystr) : option V :=
  match d with
  | [] => None
  | (k', v') :: d' => if decide (k' = k) then Some v' else dict_get d' k
  end.

(** [d.keys()], in iteration order. *)
Definition dict_keys {V : Type} (d : dict V) : list pystr := d.*1.

(** ** The data of process_attendance *)

(** An entry of [official_students]; the fields are the dictionary's keys.
    [fl] is the type of the floats. *)
Record student (fl : Type) : Type := Student {
  apellidos : pystr;
  nombres : pystr;
  nombre_completo : pystr;
  nombre_normalizado : pystr;
  asistencia : pystr;
  en_formulario : bool;
  horas_meet : fl;
}.
Arguments Student {fl}.
Arguments apellidos {fl} s.
Arguments nombres {fl} s.
Arguments nombre_completo {fl} s.
Arguments nombre_normalizado {fl} s.
Arguments asistencia {fl} s.
Arguments en_formulario {fl} s.
Arguments horas_meet {fl} s.

Definition set_en_formulario {fl : Type} (b : bool) (s : student fl)
    : student fl :=
  Student (apellidos s) (nombres s) (nombre_completo s)
    (nombre_normalizado s) (asistencia s) b (horas_meet s).

Definition set_horas_meet {fl : Type} (h : fl) (s : student fl)
    : student fl :=
  Student (apellidos s) (nombres s) (nombre_completo s)
    (nombre_normalizado s) (asistencia s) (en_formulario s) h.

Definition set_asistencia {fl : Type} (a : pystr) (s : student fl)
    : student fl :=
  Student (apellidos s) (nombres s) (nombre_completo s)
    (nombre_normalizado s) a (en_formulario s) (horas_meet s).

(** The three objects the reconciliation loop works on. The students are
    mutated in place, so the loop is a transformer of this store. *)
Record store (fl : Type) : Type := Store {
  official_students : list (student fl);
  form_attendees : dict pystr;
  meet_attendance : dict fl;
}.
Arguments Store {fl}.
Arguments official_students {fl} s.
Arguments form_attendees {fl} s.
Arguments meet_attendance {fl} s.

(** A CSV row: its cells. *)
Definition row : Type := list pystr.

(** Truth value of a [str]. *)
Definition truthy (s : pystr) : bool :=
  match s with [] => false | _ => true end.

(** Truth value of a returned match ([None] or a [str]). *)
Definition truthy_match (m : option pystr) : bool :=
  match m with Some s => truthy s | None => false end.

(** ** Step 1: the official list (the body of the loop over the rows) *)

Definition official_entry `{Unicode} `{PyFloat} (r : row)
    : option (student float) :=
  if bool_decide (2 ≤ length r)%nat then
    let apellidos := if truthy (r !!! 0%nat) then strip (r !!! 0%nat) else [] in
    let nombres := if truthy (r !!! 1%nat) then strip (r !!! 1%nat) else [] in
    if truthy apellidos || truthy nombres then
      Some {| apellidos := apellidos;
              nombres := nombres;
              nombre_completo := apellidos ++ [SPACE] ++ nombres;
              nombre_normalizado :=
                normalize_name (Some (apellidos ++ [SPACE] ++ nombres));
              asistencia := py "F";
              en_formulario := false;
              horas_meet := fzero |}
    else None
  else None.

Definition load_official `{Unicode} `{PyFloat} (rows : list row)
    : list (student float) :=
  omap official_entry rows.

(** ** Step 2: the form (the loop over the rows, the name column found) *)

(** What one row of the form contributes: nothing, or the normalized
    name and the name as read, which the loop body then assigns. *)
Definition form_entry `{Unicode} (name_col_index : nat) (r : row)
    : option (pystr * pystr) :=
  if bool_decide (name_col_index < length r)%nat then
    let student_name := strip (r !!! name_col_index) in
    if truthy student_name then
      let normalized_name := normalize_name (Some student_name) in
      Some (normalized_name, student_name)
    else None
  else None.

Definition form_step `{Unicode} (name_col_index : nat)
    (form_attendees : dict pystr) (r : row) : dict pystr :=
  match form_entry name_col_index r with
  | Some (normalized_name, student_name) =>
      dict_set form_attendees normalized_name student_name
  | None => form_attendees
  end.

Definition load_form `{Unicode} (name_col_index : nat) (rows : list row)
    : dict pystr :=
  foldl (form_step name_col_index) [] rows.

(** ** Step 3: the Meet log (the loop over the rows, the columns found) *)

(** [sep.join(parts)] *)
Fixpoint join (sep : pystr) (parts : list pystr) : pystr :=
  match parts with
  | [] => []
  | [p] => p
  | p :: ps => p ++ sep ++ join sep ps
  end.

(** What one row of the Meet log contributes: nothing (the two
    [continue]s), or the normalized name and the hours the loop body then
    assigns. [name_cols] is never empty in the program (it defaults to the
    first two columns), so [max(name_cols)] is [max_list name_cols]. A
    [ValueError] of the conversion leaves the loop. *)
Definition meet_entry `{Unicode} `{PyFloat} (name_cols : list nat)
    (duration_col : nat) (r : row) : result (option (pystr * float)) :=
  if bool_decide (length r ≤ max_list name_cols `max` duration_col)%nat
  then Ok None
  else
    let name_parts :=
      (λ i, strip (r !!! i))
        <$> List.filter (λ i, bool_decide (i < length r)%nat) name_cols in
    let name := join [SPACE] (List.filter truthy name_parts) in
    if negb (truthy name)
       || startswith (upper name) (py "MONITOR")
       || startswith (upper name) (py "SUPERVISOR")
    then Ok None
    else
      let duration :=
        if bool_decide (duration_col < length r)%nat
        then r !!! duration_col else py "0 h 0 min" in
      hours ← convert_duration_to_hours (Some duration);
      let normalized_name := normalize_name (Some name) in
      Ok (Some (normalized_name, hours)).

Definition meet_step `{Unicode} `{PyFloat} (name_cols : list nat)
    (duration_col : nat) (meet_attendance : dict float) (r : row)
    : result (dict float) :=
  e ← meet_entry name_cols duration_col r;
  Ok (match e with
      | Some (normalized_name, hours) =>
          dict_set meet_attendance normalized_name hours
      | None => meet_attendance
      end).

Fixpoint meet_loop `{Unicode} `{PyFloat} (name_cols : list nat)
    (duration_col : nat) (meet_attendance : dict float) (rows : list row)
    : result (dict float) :=
  match rows with
  | [] => Ok meet_attendance
  | r :: rows' =>
      meet_attendance' ← meet_step name_cols duration_col meet_attendance r;
      meet_loop name_cols duration_col meet_attendance' rows'
  end.

Definition load_meet `{Unicode} `{PyFloat} (name_cols : list nat)
    (duration_col : nat) (rows : list row) : result (dict float) :=
  meet_loop name_cols duration_col [] rows.

(** ** Step 4: the reconciliation loop *)

(** The body of the loop for one student. *)
Definition reconcile_student `{PyFloat} (form_attendees : dict pystr)
    (meet_attendance : dict float) (min_required_hours : float)
    (s : student float) : result (student float) :=
  let normalized_name := nombre_normalizado s in
  form_match ← find_matching_name normalized_name (dict_keys form_attendees);
  let s := if truthy_match form_match then set_en_formulario true s else s in
  meet_match ← find_matching_name normalized_name (dict_keys meet_attendance);
  s ← (if truthy_match meet_match
        then match dict_get meet_attendance (default [] meet_match) with
             | Some h => Ok (set_horas_meet h s)
             | None => Raise KeyError
             end
        else Ok s);
  Ok (if en_formulario s && fge (horas_meet s) min_required_hours
      then set_asistencia (py "A") s
      else s).

(** The loop body at position [i] of the list: the student there is
    replaced by the mutated one. *)
Definition reconcile_at `{PyFloat} (min_required_hours : float) (i : nat)
    (st : store float) : result (store float) :=
  match official_students st !! i with
  | None => Ok st
  | Some s =>
      s' ← reconcile_student (form_attendees st) (meet_attendance st)
             min_required_hours s;
      Ok {| official_students := <[i := s']> (official_students st);
            form_attendees := form_attendees st;
            meet_attendance := meet_attendance st |}
  end.

Fixpoint reconcile_from `{PyFloat} (min_required_hours : float)
    (positions : list nat) (st : store float) : result (store float) :=
  match positions with
  | [] => Ok st
  | i :: positions' =>
      st' ← reconcile_at min_required_hours i st;
      reconcile_from min_required_hours positions' st'
  end.

(** [for student in official_students: ...] *)
Definition reconcile `{PyFloat} (min_required_hours : float)
    (st : store float) : result (store float) :=
  reconcile_from min_required_hours
    (seq 0 (length (official_students st))) st.

(** Steps 1 to 4 of [process_attendance] on the rows read from the three
    files. [Ok None] is the early [return] after an error of step 3 was
    caught and reported, [Raise e] an exception nothing catches, and
    [Ok (Some st)] the store the reports are written from. *)
Definition process_attendance `{Unicode} `{PyFloat}
    (official_rows form_rows meet_rows : list row) (name_col_index : nat)
    (name_cols : list nat) (duration_col : nat) (min_required_hours : float)
    : result (option (store float)) :=
  let official_students := load_official official_rows in
  let form_attendees := load_form name_col_index form_rows in
  match load_meet name_cols duration_col meet_rows with
  | Raise _ => Ok None
  | Ok meet_attendance =>
      st ← reconcile min_required_hours
             (Store official_students form_attendees meet_attendance);
      Ok (Some st)
  end.

(** ** The normalizer as the specification words it

    Section 4.1 of the specification, step by step; [normalize_name] is
    compared with it below. *)
Module SpecWords.






(** Section 4.2, step 3: the score of a candidate, the number of common
    words over the larger of the two numbers of words. *)
Definition similarity (target candidate : pystr) : Q :=
  (inject_Z (Z.of_nat (size (words target ∩ words candidate)))
   / inject_Z (Z.of_nat (size (words target) `max` size (words candidate))))%Q.

End SpecWords.

(** ** Predicates of the statements *)

(** What the idempotence of the normalizer needs of the upper-case table:
    whitespace has no case, the image of any other code point is not
    empty and holds no whitespace, no image brings in a character of the
    deleted class, and the code points of an image are upper case
    already. *)
Record upper_laws `{Unicode} : Prop := {
  upper_space : ∀ c, isspace c = true → upper_cp c = [c];
  upper_nonspace : ∀ c, isspace c = false →
    upper_cp c ≠ [] ∧ Forall (λ d, isspace d = false) (upper_cp c);
  upper_special : ∀ c, is_special c = false →
    Forall (λ d, is_special d = false) (upper_cp c);
  upper_fixed : ∀ c, Forall (λ d, upper_cp d = [d]) (upper_cp c);
}.

(** No character of the deleted class occurs in [s]. *)
Definition special_free (s : pystr) : Prop :=
  Forall (λ c, is_special c = false) s.

(** Every whitespace code point of [s] is a space and stands before a
    code point that is not whitespace. *)
Fixpoint single_spaced (s : pystr) : Prop :=
  match s with
  | [] => True
  | c :: s' =>
      (isspace c = true →
       c = SPACE ∧ ∃ d, head s' = Some d ∧ isspace d = false)
      ∧ single_spaced s'
  end.

(** The first code point of [s], if any, is not whitespace. *)
Definition clean_head (s : pystr) : Prop :=
  ∀ c, head s = Some c → isspace c = false.

(** The last code point of [s], if any, is not whitespace. *)
Definition clean_last (s : pystr) : Prop :=
  ∀ c, last s = Some c → isspace c = false.

(** A name in normal form: no whitespace at its ends, single spaces
    between its words, upper case, none of the deleted characters. *)
Definition normal_name `{Unicode} (s : pystr) : Prop :=
  clean_head s ∧ single_spaced s
  ∧ Forall (λ d, upper_cp d = [d]) s ∧ special_free s.

(** The hours the rows of the Meet log assign to the key [k], in the
    order of the rows. *)
Definition meet_hours_for `{Unicode} `{PyFloat} (name_cols : list nat)
    (duration_col : nat) (k : pystr) (rows : list row) : list float :=
  omap (λ r, match meet_entry name_cols duration_col r with
             | Ok (Some (k', hours)) =>
                 if decide (k' = k) then Some hours else None
             | _ => None
             end) rows.

(** The names as read that the rows of the form assign to the key [k], in
    the order of the rows. *)
Definition form_names_for `{Unicode} (name_col_index : nat) (k : pystr)
    (rows : list row) : list pystr :=
  omap (λ r, match form_entry name_col_index r with
             | Some (k', student_name) =>
                 if decide (k' = k) then Some student_name else None
             | None => None
             end) rows.

(** The name has a word: [s.split()] is not empty. *)
Definition has_word (s : pystr) : Prop := split s ≠ [].

(** ** Instances to run the model on

    [latin1_text] answers for text whose upper-case image stays in
    U+0000..U+00FF, where [upper_ext] is consulted only on code points
    without case. [exact_float] keeps every finite float as the exact
    rational (no rounding to binary64, no overflow, no signed zero) and
    reads [float(s)] for ASCII text by the grammar of the language
    reference; the decimal digits of other scripts are not in it.
    [binary64] is the float of the interpreter, IEEE 754 binary64 with
    round to nearest, ties to even, on the same ASCII texts. *)

#[global] Instance latin1_text : Unicode := {| upper_ext c := [c] |}.

Inductive xfloat : Type :=
  | Finite (q : Q)
  | Infinity (negative : bool)
  | NaN.

Definition is_digit (c : N) : bool := (48 <=? c) && (c <=? 57).

(** The rest of a [digitpart] whose first digit is the head of [s]: digits,
    each possibly preceded by one underscore. Returns the digits read and
    the text left. *)
Fixpoint read_digits (s : pystr) : list N * pystr :=
  match s with
  | [] => ([], [])
  | c :: s' =>
      if is_digit c then
        let '(ds, r) := read_digits s' in (c - 48 :: ds, r)
      else if c =? 95 then
        match s' with
        | d :: _ => if is_digit d then read_digits s' else ([], s)
        | [] => ([], s)
        end
      else ([], s)
  end.

Definition digitpart (s : pystr) : option (list N * pystr) :=
  match s with
  | c :: _ => if is_digit c then Some (read_digits s) else None
  | [] => None
  end.

Definition digits_value (ds : list N) : N :=
  foldl (λ acc d, 10 * acc + d) 0 ds.

Definition read_sign (s : pystr) : bool * pystr :=
  match s with
  | 43 :: s' => (false, s')
  | 45 :: s' => (true, s')
  | _ => (false, s)
  end.

(** [exponent]: nothing, or [e] or [E], a sign and a [digitpart], up to the
    end of the text. *)
Definition read_exponent (s : pystr) : option Z :=
  match s with
  | [] => Some 0%Z
  | c :: s' =>
      if (c =? 101) || (c =? 69) then
        let '(neg, s'') := read_sign s' in
        match digitpart s'' with
        | Some (ds, []) =>
            let e := Z.of_N (digits_value ds) in
            Some (if neg then (- e)%Z else e)
        | _ => None
        end
      else None
  end.

(** [number [exponent]]: the integer and fraction digits and the
    exponent. *)
Definition read_number (s : pystr) : option (list N * list N * Z) :=
  match s with
  | 46 :: s' =>
      '(fs, r) ← digitpart s';
      e ← read_exponent r;
      Some ([], fs, e)
  | _ =>
      '(ds, r) ← digitpart s;
      match r with
      | 46 :: r' =>
          match digitpart r' with
          | Some (fs, r'') => e ← read_exponent r''; Some (ds, fs, e)
          | None => e ← read_exponent r'; Some (ds, [], e)
          end
      | _ => e ← read_exponent r; Some (ds, [], e)
      end
  end.

Definition number_value (ds fs : list N) (e : Z) : Q :=
  let m := Z.of_N (digits_value (ds ++ fs)) in
  let e' := (e - Z.of_nat (length fs))%Z in
  Qred (if (0 <=? e')%Z then inject_Z (m * 10 ^ e')
        else (inject_Z m / inject_Z (10 ^ (- e')))%Q).

Definition ascii_lower (c : N) : N :=
  if (65 <=? c) && (c <=? 90) then c + 32 else c.

(** The blanks [float(s)] drops at both ends: the ASCII ones and the
    whitespace above U+007E. *)
Definition float_blank (c : N) : bool :=
  ((9 <=? c) && (c <=? 13)) || (c =? 32) || ((127 <=? c) && isspace c).

Definition xfloat_of_str (s : pystr) : option xfloat :=
  let s := strip_of float_blank s in
  let '(neg, body) := read_sign s in
  let low := ascii_lower <$> body in
  if bool_decide (low = py "inf") || bool_decide (low = py "infinity")
  then Some (Infinity neg)
  else if bool_decide (low = py "nan") then Some NaN
  else
    '(ds, fs, e) ← read_number body;
    let q := number_value ds fs e in
    Some (Finite (if neg then Qred (- q) else q)).

Definition xfloat_add (a b : xfloat) : xfloat :=
  match a, b with
  | NaN, _ | _, NaN => NaN
  | Finite x, Finite y => Finite (Qred (x + y))
  | Infinity n, Finite _ | Finite _, Infinity n => Infinity n
  | Infinity n, Infinity m => if eqb n m then Infinity n else NaN
  end.

Definition Qneg_bool (x : Q) : bool := negb (Qle_bool 0 x).

Definition xfloat_div (a b : xfloat) : xfloat :=
  match a, b with
  | NaN, _ | _, NaN => NaN
  | Finite x, Finite y => Finite (Qred (x / y))
  | Infinity n, Finite y => Infinity (xorb n (Qneg_bool y))
  | Finite _, Infinity _ => Finite 0
  | Infinity _, Infinity _ => NaN
  end.

Definition xfloat_ge (a b : xfloat) : bool :=
  match a, b with
  | NaN, _ | _, NaN => false
  | Finite x, Finite y => Qle_bool y x
  | Infinity n, Infinity m => negb n || m
  | Infinity n, Finite _ => negb n
  | Finite _, Infinity m => m
  end.

#[global] Instance exact_float : PyFloat := {|
  float := xfloat;
  float_of_str := xfloat_of_str;
  fzero := Finite 0;
  float_of_int z := Finite (inject_Z z);
  fadd := xfloat_add;
  fdiv := xfloat_div;
  fge := xfloat_ge;
|}.

(** *** binary64

    The kernel's primitive floats are the binary64 of the hardware; the
    conversions from integers and from decimal text round once, through
    the library's specification of the format. *)

(** The binary64 nearest to [m * 10^e], ties to even, for a natural
    number [m], with the sign [negative]: the one rounding of
    [float(s)]. *)
Definition round_decimal (negative : bool) (m e : Z) : PrimFloat.float :=
  SF2Prim
    (if (m =? 0)%Z then S754_zero negative
     else if (0 <=? e)%Z then
       binary_normalize prec emax
         (if negative then (- (m * 10 ^ e))%Z else (m * 10 ^ e)%Z) 0 false
     else
       let '(q, e2, l) := SFdiv_core_binary prec emax m 0 (10 ^ (- e))%Z 0 in
       binary_round_aux prec emax negative q e2 l).

(** [float(s)] on ASCII text, by the grammar [xfloat_of_str] reads, the
    decimal value rounded once; [None] is [ValueError]. The decimal
    digits of other scripts, which Python also reads, are not in it. *)
Definition binary64_of_str (s : pystr) : option PrimFloat.float :=
  let s := strip_of float_blank s in
  let '(neg, body) := read_sign s in
  let low := ascii_lower <$> body in
  if bool_decide (low = py "inf") || bool_decide (low = py "infinity")
  then Some (if neg then PrimFloat.neg_infinity else PrimFloat.infinity)
  else if bool_decide (low = py "nan") then Some PrimFloat.nan
  else
    '(ds, fs, e) ← read_number body;
    Some (round_decimal neg (Z.of_N (digits_value (ds ++ fs)))
            (e - Z.of_nat (length fs))%Z).

(** Not an instance the resolution finds: it is named where it is
    used. [fdiv] is the IEEE division, and [float_of_int] rounds to the
    nearest binary64 (infinity where Python raises [OverflowError]); the
    code divides by 60 only, and converts no other integer. *)
Definition binary64 : PyFloat := {|
  float := PrimFloat.float;
  float_of_str := binary64_of_str;
  fzero := PrimFloat.zero;
  float_of_int z := SF2Prim (binary_normalize prec emax z 0 false);
  fadd := PrimFloat.add;
  fdiv := PrimFloat.div;
  fge a b := PrimFloat.leb b a;
|}.

(** ** Scenarios

    The rows of three small files: an official list of three students, a
    form two of them filled in, and a Meet log in which the second stayed
    3 h 50 min; and the rows of a list and a form whose only names are
    periods. *)

Definition roster_rows : list row :=
  [[py "GARCIA"; py "ANA"]; [py "LOPEZ"; py "LUIS"]; [py "PEREZ"; py "EVA"]].

Definition form_rows : list row :=
  [[py "19/05/2025"; py "ana@x.org"; py "Ana Garcia"];
   [py "19/05/2025"; py "luis@x.org"; py "Luis Lopez"]].

Definition meet_rows : list row :=
  [[py "Garcia"; py "Ana"; py "ana@x.org"; py "4 h 30 min"];
   [py "Lopez"; py "Luis"; py "luis@x.org"; py "3 h 50 min"];
   [py "Perez"; py "Eva"; py "eva@x.org"; py "5 h 0 min"]].

(** The mapping the Meet log of the scenario is read into. *)
Definition scenario_meet : dict float :=
  [(py "GARCIA ANA", Finite (9 # 2)); (py "LOPEZ LUIS", Finite (23 # 6));
   (py "PEREZ EVA", Finite 5)].

Definition period_roster_rows : list row := [[py "."; py "."]].

Definition period_form_rows : list row :=
  [[py "19/05/2025"; py "dot@x.org"; py "."]].


(** ** The rest of process_attendance

    The detection of the columns from the header rows, the attendance
    file and the summary. *)

(** The full lower-case mapping of a code point above U+00FF, given the
    text it stands in and its position there ([str.lower()] reads the
    neighbours of a capital sigma). *)
Class UnicodeLower : Type := { lower_ext : pystr → nat → list N }.

(** The lower-case mapping of U+0000..U+00FF: A-Z and the capitals
    U+00C0..U+00DE but the multiplication sign move 32 code points up;
    every other code point maps to itself. *)
Definition lower_latin1 (c : N) : N :=
  if ((65 <=? c) && (c <=? 90))
     || ((192 <=? c) && (c <=? 222) && negb (c =? 215))
  then c + 32 else c.

(** [s.lower()] *)
Definition lower `{UnicodeLower} (s : pystr) : pystr :=
  mjoin (imap (λ i c, if c <? 256 then [lower_latin1 c] else lower_ext s i) s).

(** Step 2, the name column of the form: the first column whose header,
    in upper case, holds one of three words; the third column when there
    is none. *)
Definition is_form_name_header `{Unicode} (col : pystr) : bool :=
  contains (upper col) (py "APELLIDO")
  || contains (upper col) (py "NOMBRE")
  || contains (upper col) (py "POSTULANTE").

(** The [for i, col in enumerate(header)] loop with its [break], from
    position [i]. *)
Fixpoint find_name_col `{Unicode} (i : nat) (header : row) : option nat :=
  match header with
  | [] => None
  | col :: rest =>
      if is_form_name_header col then Some i
      else find_name_col (S i) rest
  end.

Definition form_name_col `{Unicode} (header : row) : nat :=
  match find_name_col 0 header with
  | Some i => i
  | None => 2%nat
  end.

(** Step 3, the columns of the Meet log. *)
Definition is_meet_name_header `{UnicodeLower} (col : pystr) : bool :=
  let col_lower := lower col in
  contains col_lower (py "apellido") || contains col_lower (py "nombre").

Definition is_duration_header `{UnicodeLower} (col : pystr) : bool :=
  let col_lower := lower col in
  contains col_lower (py "duraci") || contains col_lower (py "duration").

(** The loop body's [elif]: [col] is taken as the duration column. *)
Definition taken_as_duration `{UnicodeLower} (col : pystr) : bool :=
  negb (is_meet_name_header col) && is_duration_header col.

(** The [for i, col in enumerate(header)] loop from position [i], with
    the name columns and the duration column found so far. *)
Fixpoint scan_meet_header `{UnicodeLower} (i : nat) (header : row)
    (name_cols : list nat) (duration_col : option nat)
    : list nat * option nat :=
  match header with
  | [] => (name_cols, duration_col)
  | col :: rest =>
      if is_meet_name_header col
      then scan_meet_header (S i) rest (name_cols ++ [i]) duration_col
      else if is_duration_header col
      then scan_meet_header (S i) rest name_cols (Some i)
      else scan_meet_header (S i) rest name_cols duration_col
  end.

(** The name columns and the duration column, with their defaults. *)
Definition meet_columns `{UnicodeLower} (header : row) : list nat * nat :=
  let '(name_cols, duration_col) := scan_meet_header 0 header [] None in
  (match name_cols with [] => [0; 1]%nat | _ => name_cols end,
   match duration_col with Some i => i | None => 3%nat end).

(** Step 5, the rows written to the attendance file. *)
Definition attendance_file {fl : Type} (students : list (student fl))
    : list row :=
  [py "APELLIDOS"; py "NOMBRES"; py "ASISTENCIA"]
  :: ((λ s, [apellidos s; nombres s; asistencia s]) <$> students).

(** Step 7, the figures of the summary: the students, those present
    and those absent. The percentages are only printed; the first one,
    [present_students/total_students*100], divides by the number of
    students. *)
Definition summary {fl : Type} (students : list (student fl))
    : result (nat * nat * nat) :=
  let total_students := length students in
  let present_students :=
    length (List.filter (λ s, bool_decide (asistencia s = py "A")) students) in
  let absent_students := (total_students - present_students)%nat in
  match total_students with
  | O => Raise ZeroDivisionError
  | _ => Ok (total_students, present_students, absent_students)
  end.

(** Steps 1 to 5 of [process_attendance] from the rows of the three
    files, header rows included: the store and the rows written to the
    attendance file. [Ok None] is an early [return]; a file without
    header row ends the run so ([StopIteration] is caught with the other
    errors of its step). The summary of step 7 is [summary] on the
    students of the store. *)
Definition process_attendance_files `{Unicode} `{UnicodeLower} `{PyFloat}
    (official_file form_file meet_file : list row)
    (min_required_hours : float)
    : result (option (store float * list row)) :=
  match official_file, form_file, meet_file with
  | _ :: official_rows, form_header :: form_rows, meet_header :: meet_rows =>
      let '(name_cols, duration_col) := meet_columns meet_header in
      r ← process_attendance official_rows form_rows meet_rows
            (form_name_col form_header) name_cols duration_col
            min_required_hours;
      Ok (match r with
          | None => None
          | Some st => Some (st, attendance_file (official_students st))
          end)
  | _, _, _ => Ok None
  end.

#[global] Instance latin1_lower_text : UnicodeLower :=
  {| lower_ext s i := match s !! i with Some c => [c] | None => [] end |}.

(** The keys of [l] in the order of their first occurrence, those of
    [seen] left out. *)
Fixpoint first_seen (seen l : list pystr) : list pystr :=
  match l with
  | [] => []
  | k :: l' =>
      if decide (k ∈ seen) then first_seen seen l'
      else k :: first_seen (k :: seen) l'
  end.

(** The keys the rows of the form assign to, in the order of the rows. *)
Definition form_keys `{Unicode} (name_col_index : nat) (rows : list row)
    : list pystr :=
  omap (λ r, fst <$> form_entry name_col_index r) rows.

(** The keys the rows of the Meet log assign to, in the order of the
    rows. *)
Definition meet_keys `{Unicode} `{PyFloat} (name_cols : list nat)
    (duration_col : nat) (rows : list row) : list pystr :=
  omap (λ r, match meet_entry name_cols duration_col r with
             | Ok (Some (k, _)) => Some k
             | _ => None
             end) rows.

(** * Properties *)

(** ** Stripping *)

Section Strip.
Variable blank : N → bool.

Lemma lstrip_of_snoc (l : pystr) (c : N) :
  lstrip_of blank (l ++ [c]) =
    match lstrip_of blank l with
    | [] => if blank c then [] else [c]
    | t => t ++ [c]
    end.
Proof.
  induction l as [|a l IH]; simpl; [done|].
  destruct (blank a); [exact IH | done].
Qed.

Lemma rstrip_of_cons (c : N) (s : pystr) :
  reverse (lstrip_of blank (reverse (c :: s))) =
    match reverse (lstrip_of blank (reverse s)) with
    | [] => if blank c then [] else [c]
    | t => c :: t
    end.
Proof.
  rewrite reverse_cons, lstrip_of_snoc.
  destruct (lstrip_of blank (reverse s)) as [|a t] eqn:E.
  - by destruct (blank c).
  - rewrite reverse_app, reverse_singleton. simpl.
    destruct (reverse (a :: t)) eqn:E'; [|done].
    apply (f_equal reverse) in E'. rewrite reverse_involutive in E'. done.
Qed.

(** Stripping the two ends in either order gives the same text. *)
Lemma strip_of_commute (s : pystr) :
  lstrip_of blank (reverse (lstrip_of blank (reverse s))) = strip_of blank s.
Proof.
  unfold strip_of.
  induction s as [|c s IH]; [done|].
  rewrite rstrip_of_cons. simpl lstrip_of at 3.
  destruct (blank c) eqn:Ec.
  - rewrite <- IH.
    destruct (reverse (lstrip_of blank (reverse s))); simpl; by rewrite ?Ec.
  - rewrite rstrip_of_cons.
    destruct (reverse (lstrip_of blank (reverse s))); simpl; by rewrite Ec.
Qed.

Lemma lstrip_of_head (s : pystr) (c : N) :
  head (lstrip_of blank s) = Some c → blank c = false.
Proof.
  induction s as [|a s IH]; simpl; [done|].
  destruct (blank a) eqn:Ea; [done|]. simpl. by intros [= <-].
Qed.

Lemma lstrip_of_id (s : pystr) :
  (∀ c, head s = Some c → blank c = false) → lstrip_of blank s = s.
Proof.
  destruct s as [|a s]; simpl; [done|].
  intros Hh. by rewrite (Hh a eq_refl).
Qed.

Lemma strip_of_head (s : pystr) (c : N) :
  head (strip_of blank s) = Some c → blank c = false.
Proof. rewrite <- strip_of_commute. apply lstrip_of_head. Qed.

Lemma strip_of_last (s : pystr) (c : N) :
  last (strip_of blank s) = Some c → blank c = false.
Proof. unfold strip_of. rewrite last_reverse. apply lstrip_of_head. Qed.

Lemma strip_of_id (s : pystr) :
  (∀ c, head s = Some c → blank c = false) →
  (∀ c, last s = Some c → blank c = false) →
  strip_of blank s = s.
Proof.
  intros Hh Hl. unfold strip_of. rewrite (lstrip_of_id s Hh).
  rewrite lstrip_of_id; [apply reverse_involutive|].
  intros c. rewrite head_reverse. apply Hl.
Qed.

Lemma lstrip_of_Forall (P : N → Prop) (s : pystr) :
  Forall P s → Forall P (lstrip_of blank s).
Proof.
  induction 1 as [|c s Hc Hs IH]; simpl; [done|].
  destruct (blank c); auto.
Qed.

Lemma strip_of_Forall (P : N → Prop) (s : pystr) :
  Forall P s → Forall P (strip_of blank s).
Proof.
  intros Hs. unfold strip_of.
  by apply Forall_reverse, lstrip_of_Forall, Forall_reverse, lstrip_of_Forall.
Qed.
End Strip.

(** ** The two substitutions *)






(** A property of a code point that holds on U+0000..U+00FF by
    evaluation. *)
Lemma latin1_check (P : N → bool) :
  forallb P (N.of_nat <$> seq 0 256) = true → ∀ c, c < 256 → P c = true.
Proof.
  intros Hall c Hc. rewrite forallb_forall in Hall. apply Hall.
  apply list_elem_of_In, list_elem_of_fmap. exists (N.to_nat c).
  split; [lia|]. apply elem_of_seq. lia.
Qed.

(** ** Names in normal form *)

Lemma last_cons_clean (c : N) (s : pystr) :
  clean_last (c :: s) → clean_last s ∧ (s = [] → isspace c = false).
Proof.
  intros Hl. split.
  - intros x Hx. apply Hl. rewrite last_cons, Hx. done.
  - intros ->. by apply Hl.
Qed.

Lemma sub_spaces_Forall (P : N → Prop) (b : bool) (s : pystr) :
  P SPACE → Forall P s → Forall P (sub_spaces b s).
Proof.
  intros Hsp Hs. revert b.
  induction Hs as [|c s Hc Hs IH]; intros b; simpl; [done|].
  destruct (isspace c), b; auto.
Qed.

Lemma sub_spaces_single_spaced (s : pystr) :
  clean_last s →
  (single_spaced (sub_spaces true s) ∧ single_spaced (sub_spaces false s))
  ∧ (s ≠ [] → ∃ d, head (sub_spaces true s) = Some d ∧ isspace d = false).
Proof.
  induction s as [|c s IH]; intros Hl; [done|].
  apply last_cons_clean in Hl as [Hl Hc].
  destruct (IH Hl) as [[IHt IHf] IHh].
  destruct (isspace c) eqn:Ec; simpl; rewrite Ec.
  - assert (s ≠ []) as Hne by (intros ->; specialize (Hc eq_refl); congruence).
    repeat split; auto.
  - simpl. rewrite Ec. repeat split; auto; try congruence.
    intros _. by exists c.
Qed.

Lemma sub_spaces_id (s : pystr) (b : bool) :
  single_spaced s → (b = true → clean_head s) → sub_spaces b s = s.
Proof.
  revert b. induction s as [|c s IH]; intros b Hs Hb; [done|].
  destruct Hs as [Hc Hs]. simpl.
  destruct (isspace c) eqn:Ec.
  - destruct b; [by rewrite (Hb eq_refl c eq_refl) in Ec|].
    destruct (Hc eq_refl) as [-> (d & Hd & Hd')].
    rewrite (IH true); [done|done|].
    intros _ x Hx. congruence.
  - rewrite (IH false); done.
Qed.

Lemma single_spaced_clean_last (s : pystr) : single_spaced s → clean_last s.
Proof.
  induction s as [|c s IH]; intros Hs x Hx; [done|].
  destruct Hs as [Hc Hs]. rewrite last_cons in Hx.
  destruct (last s) as [y|] eqn:El.
  - injection Hx as <-. by apply IH.
  - injection Hx as <-. destruct (isspace c) eqn:Ec; [|done].
    destruct (Hc eq_refl) as [_ (d & Hd & _)].
    apply last_None in El. by subst.
Qed.

Lemma sub_special_special_free (s : pystr) : special_free (sub_special s).
Proof.
  apply Forall_forall. intros c Hc.
  apply list_elem_of_In, filter_In in Hc as [_ Hc].
  by apply negb_true_iff.
Qed.

Lemma sub_special_id (s : pystr) : special_free s → sub_special s = s.
Proof.
  unfold special_free. induction 1 as [|c s Hc Hs IH]; [done|].
  unfold sub_special in *. simpl. by rewrite Hc, IH.
Qed.

Section Normal.
Context `{Unicode}.
Hypothesis laws : upper_laws.

Lemma upper_app (s t : pystr) : upper (s ++ t) = upper s ++ upper t.
Proof. apply flat_map_app. Qed.

Lemma upper_clean_head (s : pystr) : clean_head s → clean_head (upper s).
Proof.
  destruct s as [|c s]; [done|]. intros Hh x.
  destruct (upper_nonspace laws c (Hh c eq_refl)) as [Hne Hall].
  unfold upper. simpl.
  destruct (upper_cp c) as [|d l]; [done|]. simpl.
  intros [= <-]. by apply Forall_cons in Hall as [? _].
Qed.

Lemma upper_clean_last (s : pystr) : clean_last s → clean_last (upper s).
Proof.
  destruct (decide (s = [])) as [->|Hne]; [done|].
  destruct (exists_last Hne) as (l & c & ->).
  intros Hl x. rewrite upper_app.
  assert (isspace c = false) as Hc by (apply Hl, last_snoc).
  destruct (upper_nonspace laws c Hc) as [Hne' Hall].
  unfold upper at 2. simpl. rewrite app_nil_r.
  destruct (exists_last Hne') as (l' & d & Hd). rewrite Hd in *.
  rewrite app_assoc, last_snoc. intros [= <-].
  apply Forall_app in Hall as [_ Hall]. by apply Forall_cons in Hall as [? _].
Qed.

Lemma upper_all_fixed (s : pystr) :
  Forall (λ d, upper_cp d = [d]) (upper s).
Proof.
  induction s as [|c s IH]; [done|].
  apply Forall_app. split; [apply (upper_fixed laws)|done].
Qed.

Lemma upper_special_free (s : pystr) :
  special_free s → special_free (upper s).
Proof.
  unfold special_free. induction 1 as [|c s Hc Hs IH]; [by constructor|].
  apply Forall_app. split; [by apply (upper_special laws)|done].
Qed.

Lemma upper_id (s : pystr) : Forall (λ d, upper_cp d = [d]) s → upper s = s.
Proof.
  induction 1 as [|c s Hc Hs IH]; [done|].
  unfold upper in *. simpl. by rewrite Hc, IH.
Qed.

(** The normalizer leaves a name in normal form as it is. *)
Lemma normalize_name_fixpoint (n : pystr) :
  normal_name n → normalize_name (Some n) = n.
Proof.
  intros (Hh & Hs & Hf & Hp).
  destruct n as [|c n]; [done|].
  unfold normalize_name, strip.
  rewrite strip_of_id by (done || by apply single_spaced_clean_last).
  rewrite (upper_id _ Hf), (sub_spaces_id _ false Hs) by done.
  by apply sub_special_id.
Qed.

Lemma sub_spaces_clean_head (s : pystr) :
  clean_head s → clean_head (sub_spaces false s).
Proof.
  destruct s as [|c s]; [intros _ x; simpl; done|]. intros Hh x. simpl.
  rewrite (Hh c eq_refl). intros [= <-]. by apply Hh.
Qed.

(** The normalizer puts a name without deleted characters in normal
    form. *)
Lemma normalize_name_normal (s : pystr) :
  special_free s → normal_name (normalize_name (Some s)).
Proof.
  intros Hp.
  destruct s as [|c s].
  { unfold normal_name, special_free, clean_head. simpl.
    repeat split; (done || constructor). }
  unfold normalize_name. set (t := strip (c :: s)).
  assert (special_free t) as Hpt by by apply strip_of_Forall.
  assert (clean_head (upper t)) as Hh.
  { apply upper_clean_head. intros x. apply strip_of_head. }
  assert (clean_last (upper t)) as Hl.
  { apply upper_clean_last. intros x. apply strip_of_last. }
  assert (special_free (sub_spaces false (upper t))) as Hps.
  { apply sub_spaces_Forall; [done|]. by apply upper_special_free. }
  rewrite (sub_special_id _ Hps).
  repeat split; [| |  |done].
  - by apply sub_spaces_clean_head.
  - by apply sub_spaces_single_spaced.
  - apply sub_spaces_Forall; [|apply upper_all_fixed].
    by apply (upper_space laws).
Qed.
End Normal.

(** [latin1_text] obeys the laws of the upper-case table. *)
Lemma latin1_text_laws : @upper_laws latin1_text.
Proof.
  split; intros c.
  - intros Hc. unfold upper_cp. destruct (N.ltb_spec c 256) as [Hlt|_]; [|done].
    generalize (latin1_check
      (λ c, implb (isspace c) (bool_decide (upper_latin1 c = [c])))
      eq_refl c Hlt).
    rewrite Hc. simpl. apply bool_decide_eq_true_1.
  - intros Hc. unfold upper_cp. destruct (N.ltb_spec c 256) as [Hlt|_].
    + generalize (latin1_check
        (λ c, implb (negb (isspace c))
                (bool_decide (upper_latin1 c ≠ [])
                 && forallb (λ d, negb (isspace d)) (upper_latin1 c)))
        eq_refl c Hlt).
      rewrite Hc. simpl. intros [H1 H2]%andb_true_iff. split.
      * by apply bool_decide_eq_true in H1.
      * apply Forall_forall. intros d Hd. rewrite forallb_forall in H2.
        apply negb_true_iff, H2. by apply list_elem_of_In.
    + simpl. split; [done|]. by repeat constructor.
  - intros Hc. unfold upper_cp. destruct (N.ltb_spec c 256) as [Hlt|_].
    + generalize (latin1_check
        (λ c, implb (negb (is_special c))
                (forallb (λ d, negb (is_special d)) (upper_latin1 c)))
        eq_refl c Hlt).
      rewrite Hc. simpl. intros H2.
      apply Forall_forall. intros d Hd. rewrite forallb_forall in H2.
      apply negb_true_iff, H2. by apply list_elem_of_In.
    + simpl. by repeat constructor.
  - unfold upper_cp at 2. destruct (N.ltb_spec c 256) as [Hlt|Hge].
    + generalize (latin1_check
        (λ c, forallb (λ d, bool_decide (upper_cp d = [d])) (upper_latin1 c))
        eq_refl c Hlt).
      intros H2. apply Forall_forall. intros d Hd.
      rewrite forallb_forall in H2.
      eapply bool_decide_eq_true, H2. by apply list_elem_of_In.
    + simpl. repeat constructor. unfold upper_cp.
      destruct (N.ltb_spec c 256); [lia|done].
Qed.

(** ** The normalizer: C3 and C7 *)

(** C3 on the failing input. [A . B] normalizes to [A], two spaces, [B]:
    the runs of whitespace are collapsed before the period between the
    two spaces is deleted, so the name the normalizer returns still holds
    a double space, against the comment of its own second step
    (eliminar espacios multiples). Normalizing that name gives [A B], so
    the normalizer is not idempotent, whatever the upper-case table above
    U+00FF. *)
Theorem normalize_name_not_idempotent `{Unicode} :
  normalize_name (Some (py "A . B")) = [65; 32; 32; 66]
  ∧ normalize_name (Some (normalize_name (Some (py "A . B")))) = [65; 32; 66]
  ∧ normalize_name (Some (normalize_name (Some (py "A . B"))))
    ≠ normalize_name (Some (py "A . B")).
Proof. by vm_compute. Qed.


(** ** The duration conversion *)

(** Closes a goal [c ∉ s] on closed text. *)
Ltac not_in_text :=
  let H := fresh in
  intros H; vm_compute in H;
  repeat (apply elem_of_cons in H as [H|H]; [discriminate H|]);
  by apply elem_of_nil in H.

Lemma split_on_nonempty (sep : N) (s : pystr) : split_on sep s ≠ [].
Proof.
  destruct s as [|c s]; simpl; [done|].
  destruct (c =? sep); [done|]. by destruct (split_on sep s).
Qed.

(** A piece without separator, then a separator: the piece is the first
    of the split. *)
Lemma split_on_piece (sep : N) (p rest : pystr) :
  sep ∉ p → split_on sep (p ++ sep :: rest) = p :: split_on sep rest.
Proof.
  induction p as [|c p IH]; intros Hp; simpl.
  - by rewrite N.eqb_refl.
  - apply not_elem_of_cons in Hp as [Hc Hp].
    rewrite (proj2 (N.eqb_neq c sep)) by done. by rewrite (IH Hp).
Qed.

Lemma split_on_last_piece (sep : N) (p : pystr) :
  sep ∉ p → split_on sep p = [p].
Proof.
  induction p as [|c p IH]; intros Hp; simpl; [done|].
  apply not_elem_of_cons in Hp as [Hc Hp].
  rewrite (proj2 (N.eqb_neq c sep)) by done. by rewrite (IH Hp).
Qed.

(** C4, as amended. The conversion splits the text at every single
    space. It reads the hours from the first piece when there are at
    least two pieces and the second holds [h], and the minutes from the
    third piece when there are at least four pieces and the fourth holds
    [min]; each of the two parts defaults to 0 on its own when its piece
    is missing or its unit is not recognised, and the result is the hours
    plus the minutes over 60. So a text [H h M min], where [H] and [M]
    hold no space and [float] reads them, gives [H + M/60]: in binary64,
    [4 h 30 min] gives 4.5 and [3 h 50 min] gives 3.8333333333333335,
    about 3.83. A part whose unit is recognised and whose number [float]
    rejects does not default to 0: the conversion raises [ValueError]. *)
Theorem convert_duration_to_hours_parts :
  (∀ (F : PyFloat) (text : pystr) (hours minutes : float),
     let parts := split_on SPACE text in
     ((2 ≤ length parts)%nat ∧ contains (parts !!! 1%nat) (py "h") = true
        ∧ float_of_str (parts !!! 0%nat) = Some hours
      ∨ ((length parts < 2)%nat ∨ contains (parts !!! 1%nat) (py "h") = false)
        ∧ hours = fzero) →
     ((4 ≤ length parts)%nat ∧ contains (parts !!! 3%nat) (py "min") = true
        ∧ float_of_str (parts !!! 2%nat) = Some minutes
      ∨ ((length parts < 4)%nat
         ∨ contains (parts !!! 3%nat) (py "min") = false)
        ∧ minutes = fzero) →
     convert_duration_to_hours (Some text)
     = Ok (fadd hours (fdiv minutes (float_of_int 60))))
  ∧ (∀ (F : PyFloat) (H M : pystr) (h m : float),
       SPACE ∉ H → SPACE ∉ M →
       float_of_str H = Some h → float_of_str M = Some m →
       convert_duration_to_hours (Some (H ++ py " h " ++ M ++ py " min"))
       = Ok (fadd h (fdiv m (float_of_int 60))))
  ∧ (∀ (F : PyFloat) (text : pystr),
       let parts := split_on SPACE text in
       (2 ≤ length parts)%nat → contains (parts !!! 1%nat) (py "h") = true →
       float_of_str (parts !!! 0%nat) = None →
       convert_duration_to_hours (Some text) = Raise ValueError)
  ∧ (∀ (F : PyFloat) (text : pystr),
       let parts := split_on SPACE text in
       (4 ≤ length parts)%nat → contains (parts !!! 3%nat) (py "min") = true →
       float_of_str (parts !!! 2%nat) = None →
       convert_duration_to_hours (Some text) = Raise ValueError)
  ∧ @convert_duration_to_hours binary64 (Some (py "4 h 30 min"))
    = Ok 4.5%float
  ∧ @convert_duration_to_hours binary64 (Some (py "3 h 50 min"))
    = Ok 3.8333333333333335%float
  ∧ (3.83 <? 3.8333333333333335)%float = true
  ∧ (3.8333333333333335 <? 3.84)%float = true.
Proof.
  assert (∀ (F : PyFloat) (text : pystr) (hours minutes : float),
     let parts := split_on SPACE text in
     ((2 ≤ length parts)%nat ∧ contains (parts !!! 1%nat) (py "h") = true
        ∧ float_of_str (parts !!! 0%nat) = Some hours
      ∨ ((length parts < 2)%nat ∨ contains (parts !!! 1%nat) (py "h") = false)
        ∧ hours = fzero) →
     ((4 ≤ length parts)%nat ∧ contains (parts !!! 3%nat) (py "min") = true
        ∧ float_of_str (parts !!! 2%nat) = Some minutes
      ∨ ((length parts < 4)%nat
         ∨ contains (parts !!! 3%nat) (py "min") = false)
        ∧ minutes = fzero) →
     convert_duration_to_hours (Some text)
     = Ok (fadd hours (fdiv minutes (float_of_int 60)))) as Hparts.
  { intros F text hours minutes parts Hh Hm.
    unfold convert_duration_to_hours. fold parts.
    assert ((if bool_decide (2 ≤ length parts)%nat
                && contains (parts !!! 1%nat) (py "h")
             then to_float (parts !!! 0%nat) else Ok fzero) = Ok hours) as ->.
    { destruct Hh as [(Hlen & Hu & Hf)|[Hu ->]].
      - rewrite Hu, (bool_decide_eq_true_2 _ Hlen). simpl.
        unfold to_float. by rewrite Hf.
      - destruct Hu as [Hlen|Hu].
        + by rewrite bool_decide_eq_false_2 by lia.
        + by rewrite Hu, andb_false_r. }
    assert ((if bool_decide (4 ≤ length parts)%nat
                && contains (parts !!! 3%nat) (py "min")
             then to_float (parts !!! 2%nat) else Ok fzero) = Ok minutes)
      as ->; [|done].
    destruct Hm as [(Hlen & Hu & Hf)|[Hu ->]].
    - rewrite Hu, (bool_decide_eq_true_2 _ Hlen). simpl.
      unfold to_float. by rewrite Hf.
    - destruct Hu as [Hlen|Hu].
      + by rewrite bool_decide_eq_false_2 by lia.
      + by rewrite Hu, andb_false_r. }
  split_and!; try done.
  - intros F H M h m HH HM Hh Hm. apply Hparts.
    + left.
      change (H ++ py " h " ++ M ++ py " min")
        with (H ++ SPACE :: py "h" ++ SPACE :: M ++ SPACE :: py "min").
      rewrite (split_on_piece _ _ _ HH).
      rewrite (split_on_piece SPACE (py "h") _) by not_in_text.
      rewrite (split_on_piece _ _ _ HM).
      rewrite (split_on_last_piece SPACE (py "min")) by not_in_text.
      simpl. split_and!; [lia|done|done].
    + left.
      change (H ++ py " h " ++ M ++ py " min")
        with (H ++ SPACE :: py "h" ++ SPACE :: M ++ SPACE :: py "min").
      rewrite (split_on_piece _ _ _ HH).
      rewrite (split_on_piece SPACE (py "h") _) by not_in_text.
      rewrite (split_on_piece _ _ _ HM).
      rewrite (split_on_last_piece SPACE (py "min")) by not_in_text.
      simpl. split_and!; [lia|done|done].
  - intros F text parts Hlen Hh Hf. unfold convert_duration_to_hours.
    fold parts.
    rewrite Hh, (bool_decide_eq_true_2 (2 ≤ length parts)%nat) by done. simpl.
    unfold to_float. by rewrite Hf.
  - intros F text parts Hlen Hm Hf. unfold convert_duration_to_hours.
    fold parts. rewrite Hm, (bool_decide_eq_true_2 (4 ≤ length parts)%nat) by done.
    unfold to_float. rewrite Hf.
    destruct (bool_decide (2 ≤ length parts)%nat && _); [|done].
    by destruct (float_of_str (parts !!! 0%nat)).
Qed.

(** The amended C4 at [x y 30 min], in binary64: the hours default to 0
    because the second piece holds no [h], and the minutes are kept. *)
Lemma convert_duration_to_hours_witness :
  @convert_duration_to_hours binary64 (Some (py "x y 30 min"))
  = Ok 0.5%float.
Proof.
  refine (proj1 convert_duration_to_hours_parts binary64 (py "x y 30 min")
            PrimFloat.zero 30%float _ _).
  - right. split; [by right|done].
  - left. split_and!; [vm_compute; lia|done|done].
Defined.

(** C4 as stated fails: in [abc h 10 min] the hours are malformed, and
    the conversion does not give 0 hours and 10 minutes, it raises
    [ValueError]. *)
Lemma convert_duration_to_hours_malformed :
  @convert_duration_to_hours binary64 (Some (py "abc h 10 min"))
  = Raise ValueError.
Proof. reflexivity. Qed.

(** ** Dictionaries *)

Section Dict.
Context {V : Type}.
Implicit Types (d : dict V) (k : pystr) (v : V).

Lemma dict_get_set d k v k' :
  dict_get (dict_set d k v) k' =
    if decide (k = k') then Some v else dict_get d k'.
Proof.
  induction d as [|[k0 v0] d IH]; simpl.
  - destruct (decide (k = k')); done.
  - destruct (decide (k0 = k)) as [->|Hne]; simpl.
    + destruct (decide (k = k')); done.
    + destruct (decide (k0 = k')) as [->|Hne'].
      * by rewrite decide_False.
      * done.
Qed.

Lemma dict_keys_set d k v :
  dict_keys (dict_set d k v) =
    if decide (k ∈ dict_keys d) then dict_keys d else dict_keys d ++ [k].
Proof.
  unfold dict_keys. induction d as [|[k0 v0] d IH].
  - case_decide as Hin; [by apply elem_of_nil in Hin|done].
  - change (dict_set ((k0, v0) :: d) k v)
      with (if decide (k0 = k) then (k0, v) :: d
            else (k0, v0) :: dict_set d k v).
    destruct (decide (k0 = k)) as [->|Hne]; rewrite !fmap_cons.
    + rewrite decide_True; [done|]. apply list_elem_of_here.
    + rewrite IH. cbn [fst]. destruct (decide (k ∈ d.*1)) as [Hin|Hnin].
      * rewrite decide_True; [done|]. by apply list_elem_of_further.
      * rewrite decide_False; [done|].
        intros [?|?]%elem_of_cons; congruence.
Qed.

(** One entry per key. *)
Lemma dict_set_NoDup d k v :
  NoDup (dict_keys d) → NoDup (dict_keys (dict_set d k v)).
Proof.
  intros Hd. rewrite dict_keys_set. case_decide; [done|].
  apply NoDup_app. split_and!; [done| |apply NoDup_singleton].
  intros x Hx ->%list_elem_of_singleton. done.
Qed.

Lemma dict_get_Some_key d k v : dict_get d k = Some v → k ∈ dict_keys d.
Proof.
  unfold dict_keys. induction d as [|[k0 v0] d IH]; simpl; [done|].
  destruct (decide (k0 = k)) as [->|Hne].
  - intros _. apply list_elem_of_here.
  - intros Hg. apply list_elem_of_further. by apply IH.
Qed.

Lemma dict_get_key d k : k ∈ dict_keys d → is_Some (dict_get d k).
Proof.
  unfold dict_keys. induction d as [|[k0 v0] d IH]; simpl.
  - by intros ?%elem_of_nil.
  - destruct (decide (k0 = k)) as [->|Hne]; [by eexists|].
    intros [?|?]%elem_of_cons; [congruence|by apply IH].
Qed.
End Dict.

(** ** The two logs: the last row of a key wins *)

Section Logs.
Context `{Unicode} `{PyFloat}.
Variables (name_cols : list nat) (duration_col name_col_index : nat).

Lemma meet_loop_get (rows : list row) (d0 d : dict float) (k : pystr) :
  meet_loop name_cols duration_col d0 rows = Ok d →
  dict_get d k =
    match last (meet_hours_for name_cols duration_col k rows) with
    | Some hours => Some hours
    | None => dict_get d0 k
    end.
Proof.
  revert d0. induction rows as [|r rows IH]; intros d0; simpl.
  - by intros [= ->].
  - unfold meet_step.
    destruct (meet_entry name_cols duration_col r) as [[[k' h]|]|e]; simpl;
      [| |done].
    + intros Hd. rewrite (IH _ Hd), dict_get_set.
      destruct (decide (k' = k)) as [->|Hne]; [|done].
      rewrite last_cons.
      by destruct (last (meet_hours_for name_cols duration_col k rows)).
    + apply IH.
Qed.

Lemma meet_loop_NoDup (rows : list row) (d0 d : dict float) :
  meet_loop name_cols duration_col d0 rows = Ok d →
  NoDup (dict_keys d0) → NoDup (dict_keys d).
Proof.
  revert d0. induction rows as [|r rows IH]; intros d0; simpl.
  - by intros [= ->].
  - unfold meet_step.
    destruct (meet_entry name_cols duration_col r) as [[[k' h]|]|e]; simpl;
      [| |done].
    + intros Hd Hd0. apply (IH _ Hd). by apply dict_set_NoDup.
    + apply IH.
Qed.

Lemma form_fold_get (rows : list row) (d0 : dict pystr) (k : pystr) :
  dict_get (foldl (form_step name_col_index) d0 rows) k =
    match last (form_names_for name_col_index k rows) with
    | Some student_name => Some student_name
    | None => dict_get d0 k
    end.
Proof.
  revert d0. induction rows as [|r rows IH]; intros d0; simpl; [done|].
  rewrite IH. unfold form_step.
  destruct (form_entry name_col_index r) as [[k' n]|]; [|done].
  rewrite dict_get_set.
  destruct (decide (k' = k)) as [->|Hne]; [|done].
  rewrite last_cons.
  by destruct (last (form_names_for name_col_index k rows)).
Qed.

Lemma form_fold_NoDup (rows : list row) (d0 : dict pystr) :
  NoDup (dict_keys d0) →
  NoDup (dict_keys (foldl (form_step name_col_index) d0 rows)).
Proof.
  revert d0. induction rows as [|r rows IH]; intros d0 Hd0; simpl; [done|].
  apply IH. unfold form_step.
  destruct (form_entry name_col_index r) as [[k' n]|]; [|done].
  by apply dict_set_NoDup.
Qed.

(** C8. When the Meet log is read without error into the mapping [d],
    [d] has one entry per key, and the hours under a key [k] are those
    of the last row whose name normalizes to [k]: an earlier row of the
    same key is overwritten, and nothing is added up. In particular two
    rows of one key leave the hours of the second. Likewise the form
    mapping holds, under each key, the name as read in the last row of
    that key. *)
Theorem last_row_wins (meet_rows form_rows : list row) (d : dict float) :
  load_meet name_cols duration_col meet_rows = Ok d →
  (NoDup (dict_keys d)
   ∧ ∀ k, dict_get d k
          = last (meet_hours_for name_cols duration_col k meet_rows))
  ∧ (∀ r1 r2 k h1 h2,
       meet_entry name_cols duration_col r1 = Ok (Some (k, h1)) →
       meet_entry name_cols duration_col r2 = Ok (Some (k, h2)) →
       load_meet name_cols duration_col [r1; r2] = Ok [(k, h2)])
  ∧ (NoDup (dict_keys (load_form name_col_index form_rows))
     ∧ ∀ k, dict_get (load_form name_col_index form_rows) k
            = last (form_names_for name_col_index k form_rows))
  ∧ (∀ r1 r2 k n1 n2,
       form_entry name_col_index r1 = Some (k, n1) →
       form_entry name_col_index r2 = Some (k, n2) →
       load_form name_col_index [r1; r2] = [(k, n2)]).
Proof.
  intros Hd. split_and!.
  - apply (meet_loop_NoDup _ _ _ Hd). constructor.
  - intros k. rewrite (meet_loop_get _ _ _ k Hd).
    by destruct (last _).
  - intros r1 r2 k h1 h2 H1 H2. unfold load_meet. simpl.
    unfold meet_step. rewrite H1. simpl. rewrite H2. simpl.
    by rewrite decide_True.
  - apply form_fold_NoDup. constructor.
  - intros k. unfold load_form. rewrite form_fold_get.
    by destruct (last _).
  - intros r1 r2 k n1 n2 H1 H2. unfold load_form. simpl.
    unfold form_step. rewrite H1, H2. simpl. by rewrite decide_True.
Qed.
End Logs.

(** C8 at a Meet log in which [Ana Garcia] stays 3 h and then 1 h 30 min,
    and a form she fills in twice: the mapping holds 1.5 hours (not 4.5)
    and the second spelling. *)
Lemma last_row_wins_witness :
  load_meet [0; 1]%nat 3
    [[py "Garcia"; py "Ana"; py "a@x.org"; py "3 h 0 min"];
     [py "garcia"; py "ana."; py "a@x.org"; py "1 h 30 min"]]
  = Ok [(py "GARCIA ANA", Finite (3 # 2))]
  ∧ load_form 2
      [[py "t1"; py "a@x.org"; py "Garcia Ana"];
       [py "t2"; py "a@x.org"; py "GARCIA, ana"]]
    = [(py "GARCIA ANA", py "GARCIA, ana")].
Proof.
  pose proof (last_row_wins [0; 1]%nat 3 2
    [[py "Garcia"; py "Ana"; py "a@x.org"; py "3 h 0 min"];
     [py "garcia"; py "ana."; py "a@x.org"; py "1 h 30 min"]]
    [[py "t1"; py "a@x.org"; py "Garcia Ana"];
     [py "t2"; py "a@x.org"; py "GARCIA, ana"]]
    [(py "GARCIA ANA", Finite (3 # 2))] eq_refl) as (_ & Hm & _ & Hf).
  split; [eapply Hm | eapply Hf]; reflexivity.
Defined.

(** ** The matcher *)

Lemma Qgt_bool_iff (a b : Q) : Qgt_bool a b = true ↔ (b < a)%Q.
Proof.
  unfold Qgt_bool. rewrite negb_true_iff, <- not_true_iff_false, Qle_bool_iff.
  split; [apply Qnot_le_lt | apply Qlt_not_le].
Qed.

Lemma words_has_word (s : pystr) : has_word s ↔ size (words s) ≠ 0%nat.
Proof.
  unfold has_word, words. rewrite size_non_empty_iff. split.
  - intros Hne Hempty. destruct (split s) as [|w ws]; [done|].
    assert (w ∈ (list_to_set (w :: ws) : gset pystr)) as Hw by set_solver.
    rewrite Hempty in Hw. set_solver.
  - intros Hne E. apply Hne. by rewrite E.
Qed.

(** The score is defined as soon as one of the two names has a word, and
    is then the similarity of the specification. *)
Lemma score_similarity (target name : pystr) :
  size (words target) ≠ 0%nat ∨ size (words name) ≠ 0%nat →
  score (words target) (words name) = Ok (SpecWords.similarity target name).
Proof.
  intros Hne. unfold score, SpecWords.similarity.
  destruct (size (words target) `max` size (words name))%nat eqn:Ed; [lia|done].
Qed.

Lemma score_no_word (target name : pystr) :
  size (words target) = 0%nat → size (words name) = 0%nat →
  score (words target) (words name) = Raise ZeroDivisionError.
Proof. intros Ht Hn. unfold score. by rewrite Ht, Hn. Qed.

(** A score above one half counts a common word. *)
Lemma similarity_common_word (target name : pystr) :
  (1 # 2 < SpecWords.similarity target name)%Q →
  ∃ w, w ∈ split target ∧ w ∈ split name.
Proof.
  unfold SpecWords.similarity. intros Hq.
  destruct (size (words target ∩ words name)) as [|n] eqn:En.
  - exfalso. unfold Qdiv in Hq. rewrite Qmult_0_l in Hq.
    unfold Qlt in Hq. simpl in Hq. lia.
  - destruct (size_pos_elem_of (words target ∩ words name)) as [w Hw]; [lia|].
    exists w. unfold words in Hw. set_solver.
Qed.

Section Loop.
Variable target : pystr.
Hypothesis target_word : has_word target.

Local Abbreviation sim := (SpecWords.similarity target).

(** [q] replaces the best score [best]. *)
Let beats (q best : Q) : Prop := (best < q)%Q ∧ (1 # 2 < q)%Q.

Lemma find_loop_best (name_list : list pystr) (best_match : option pystr)
    (best_score : Q) :
  ∃ r, find_loop (words target) name_list best_match best_score = Ok r
    ∧ ((r = best_match ∧ ∀ n, n ∈ name_list → ¬ beats (sim n) best_score)
       ∨ ∃ l1 m l2, name_list = l1 ++ m :: l2 ∧ r = Some m
           ∧ beats (sim m) best_score
           ∧ (∀ n, n ∈ l1 → (sim n < sim m)%Q)
           ∧ (∀ n, n ∈ l2 → (sim n <= sim m)%Q)).
Proof.
  revert best_match best_score.
  induction name_list as [|n rest IH]; intros bm bs; simpl.
  - exists bm. split; [done|]. left. split; [done|]. by intros n ?%elem_of_nil.
  - rewrite score_similarity by (left; by apply words_has_word). simpl.
    destruct (Qgt_bool (sim n) bs && Qgt_bool (sim n) (1 # 2)) eqn:Eb.
    + apply andb_true_iff in Eb as [Hbs Hhalf].
      apply Qgt_bool_iff in Hbs, Hhalf.
      destruct (IH (Some n) (sim n)) as (r & -> & Hr). exists r.
      split; [done|]. right.
      destruct Hr as [[-> Hrest]|(l1 & m & l2 & -> & -> & [Hm1 Hm2] & Hl1 & Hl2)].
      * exists [], n, rest.
        split; [done|]. split; [done|]. split; [by split|]. split.
        -- by intros x ?%elem_of_nil.
        -- intros x Hx. apply Qnot_lt_le. intros Hlt.
           apply (Hrest x Hx). split; [done|]. by apply Qlt_trans with (sim n).
      * exists (n :: l1), m, l2.
        split; [done|]. split; [done|]. split; [|split; [|done]].
        -- split; [|done]. by apply Qlt_trans with (sim n).
        -- intros x [->|Hx]%elem_of_cons; [done|by apply Hl1].
    + assert (¬ beats (sim n) bs) as Hn.
      { intros [H1 H2]. apply Qgt_bool_iff in H1, H2.
        by rewrite H1, H2 in Eb. }
      destruct (IH bm bs) as (r & -> & Hr). exists r. split; [done|].
      destruct Hr as [[-> Hrest]|(l1 & m & l2 & -> & -> & [Hm1 Hm2] & Hl1 & Hl2)].
      * left. split; [done|].
        intros x [->|Hx]%elem_of_cons; [done|by apply Hrest].
      * right. exists (n :: l1), m, l2.
        split; [done|]. split; [done|]. split; [by split|]. split; [|done].
        intros x [->|Hx]%elem_of_cons; [|by apply Hl1].
        destruct (Qlt_le_dec (sim n) (sim m)) as [|Hle]; [done|].
        exfalso. apply Hn. split.
        -- by apply Qlt_le_trans with (sim m).
        -- by apply Qlt_le_trans with (sim m).
Qed.
End Loop.

(** What the loop returns is the match it started from or a name of the
    list whose score is above one half. *)
Lemma find_loop_member (target_words : gset pystr) (name_list : list pystr)
    (best_match : option pystr) (best_score : Q) (m : pystr) :
  find_loop target_words name_list best_match best_score = Ok (Some m) →
  best_match = Some m
  ∨ (m ∈ name_list
     ∧ ∃ q, score target_words (words m) = Ok q ∧ (1 # 2 < q)%Q).
Proof.
  revert best_match best_score.
  induction name_list as [|n rest IH]; intros bm bs; simpl.
  - intros [= ->]. by left.
  - destruct (score target_words (words n)) as [q|e] eqn:Eq; simpl; [|done].
    destruct (Qgt_bool q bs && Qgt_bool q (1 # 2)) eqn:Eb; intros Hr.
    + apply andb_true_iff in Eb as [_ Hhalf]. apply Qgt_bool_iff in Hhalf.
      right. destruct (IH _ _ Hr) as [[= <-]|[Hin Hq]].
      * split; [apply list_elem_of_here|by exists q].
      * split; [by apply list_elem_of_further|done].
    + destruct (IH _ _ Hr) as [->|[Hin Hq]]; [by left|right].
      split; [by apply list_elem_of_further|done].
Qed.

Lemma has_word_nonempty (s : pystr) : has_word s → s ≠ [].
Proof. by intros Hw ->. Qed.

(** The matcher on a target that has a word and is not itself in the
    list: it returns, with no match when no score is above one half, and
    otherwise with the first name of the highest score. *)
Lemma find_matching_name_best (target : pystr) (name_list : list pystr) :
  has_word target → target ∉ name_list →
  ∃ r, find_matching_name target name_list = Ok r
    ∧ ((r = None
        ∧ ∀ n, n ∈ name_list → (SpecWords.similarity target n <= 1 # 2)%Q)
       ∨ ∃ l1 m l2, name_list = l1 ++ m :: l2 ∧ r = Some m
           ∧ (1 # 2 < SpecWords.similarity target m)%Q
           ∧ (∀ n, n ∈ l1 →
                (SpecWords.similarity target n < SpecWords.similarity target m)%Q)
           ∧ (∀ n, n ∈ l2 →
                (SpecWords.similarity target n <= SpecWords.similarity target m)%Q)).
Proof.
  intros Hw Hnotin. unfold find_matching_name.
  destruct target as [|c t] eqn:Et; [by apply has_word_nonempty in Hw|].
  rewrite <- Et in *. rewrite bool_decide_eq_false_2 by done.
  destruct (find_loop_best target Hw name_list None 0%Q) as (r & Hr & Hspec).
  exists r. split; [done|].
  destruct Hspec as [[-> Hall]|(l1 & m & l2 & -> & -> & [_ Hm] & Hl1 & Hl2)].
  - left. split; [done|]. intros n Hn. apply Qnot_lt_le. intros Hlt.
    apply (Hall n Hn). split; [|done]. by apply Qlt_trans with (1 # 2)%Q.
  - right. by exists l1, m, l2.
Qed.

(** What the matcher returns is a name of the list, and shares a word
    with the target unless it is the target. *)
Lemma find_matching_name_member (target : pystr) (name_list : list pystr)
    (m : pystr) :
  find_matching_name target name_list = Ok (Some m) →
  m ∈ name_list
  ∧ (m ≠ target → ∃ w, w ∈ split target ∧ w ∈ split m).
Proof.
  unfold find_matching_name.
  destruct target as [|c t] eqn:Et; [done|]. rewrite <- Et.
  case_bool_decide as Hin.
  - intros [= <-]. done.
  - intros [[=]|[Hm (q & Hq & Hhalf)]]%find_loop_member.
    split; [done|]. intros _.
    apply similarity_common_word.
    unfold score in Hq.
    destruct (size (words target) `max` size (words m))%nat eqn:Ed; [done|].
    injection Hq as <-. unfold SpecWords.similarity. by rewrite Ed.
Qed.

(** The matcher returns on every target that is empty or has a word. *)
Lemma find_matching_name_returns (target : pystr) (name_list : list pystr) :
  target = [] ∨ has_word target →
  ∃ r, find_matching_name target name_list = Ok r.
Proof.
  intros [->|Hw]; [by exists None|].
  destruct (decide (target ∈ name_list)) as [Hin|Hnotin].
  - exists (Some target). unfold find_matching_name.
    destruct target; [by apply has_word_nonempty in Hw|].
    by rewrite bool_decide_eq_true_2.
  - destruct (find_matching_name_best target name_list Hw Hnotin)
      as (r & Hr & _). by exists r.
Qed.

(** ** The matcher: C2, C5 and C6 *)

(** C2 on the failing input. The target of one space is not empty and is
    not in the list that holds the empty name; neither has a word, so the
    score is 0/0 and the call raises [ZeroDivisionError] where the
    specification has it return no match. *)
Theorem find_matching_name_blank_target :
  (py " " ≠ []) ∧ (py " " ∉ [[]])
  ∧ score (words (py " ")) (words []) = Raise ZeroDivisionError
  ∧ find_matching_name (py " ") [[]] = Raise ZeroDivisionError.
Proof.
  split_and!; try done.
  by intros [=]%list_elem_of_singleton.
Qed.

(** C5, as amended. For the target [JOHN SMITH] and the one candidate
    [JOHN DOE] the score is 1/2: one common word over two words. One half
    is not above the threshold of one half, and the matcher returns no
    match. *)
Theorem john_smith_john_doe :
  score (words (py "JOHN SMITH")) (words (py "JOHN DOE")) = Ok (1 # 2)
  ∧ Qgt_bool (1 # 2) (1 # 2) = false
  ∧ find_matching_name (py "JOHN SMITH") [py "JOHN DOE"] = Ok None.
Proof. by vm_compute. Qed.

(** C5 as stated fails: the score is not 1/3, and it is not below one
    half. *)
Lemma john_smith_john_doe_not_a_third :
  ¬ (∃ q, score (words (py "JOHN SMITH")) (words (py "JOHN DOE")) = Ok q
          ∧ (q == 1 # 3)%Q)
  ∧ ¬ (∃ q, score (words (py "JOHN SMITH")) (words (py "JOHN DOE")) = Ok q
            ∧ (q < 1 # 2)%Q).
Proof.
  assert (score (words (py "JOHN SMITH")) (words (py "JOHN DOE"))
          = Ok (1 # 2)) as -> by by vm_compute.
  split; intros (q & [= <-] & Hq); by vm_compute in Hq.
Qed.

(** C6, as amended. A target that is not empty and is in the list is
    returned itself, whatever the other names of the list. *)
Theorem find_matching_name_exact (target : pystr) (name_list : list pystr) :
  target ≠ [] → target ∈ name_list →
  find_matching_name target name_list = Ok (Some target).
Proof.
  intros Hne Hin. unfold find_matching_name.
  destruct target; [done|]. by rewrite bool_decide_eq_true_2.
Qed.

(** The amended C6 at [ANA GARCIA], behind a name of the same words and
    before the empty name. *)
Lemma find_matching_name_exact_witness :
  find_matching_name (py "ANA GARCIA")
    [py "GARCIA ANA"; py "ANA GARCIA"; []]
  = Ok (Some (py "ANA GARCIA")).
Proof.
  apply find_matching_name_exact; [done|].
  apply list_elem_of_further, list_elem_of_here.
Defined.

(** C6 as stated fails: the empty target is in the list that holds the
    empty name, and the matcher returns no match. *)
Lemma find_matching_name_empty_target :
  (([] : pystr) ∈ [[] : pystr])
  ∧ find_matching_name [] [[]] = Ok None
  ∧ find_matching_name [] [[]] ≠ Ok (Some []).
Proof. split_and!; [apply list_elem_of_here|done|done]. Qed.

(** ** The reconciliation loop *)

Section Reconcile.
Context `{PyFloat}.
Variable min_required_hours : float.

(** The loop body writes three fields only. *)
Lemma reconcile_student_frame (form : dict pystr) (meet : dict float)
    (s s' : student float) :
  reconcile_student form meet min_required_hours s = Ok s' →
  apellidos s' = apellidos s ∧ nombres s' = nombres s
  ∧ nombre_completo s' = nombre_completo s
  ∧ nombre_normalizado s' = nombre_normalizado s.
Proof.
  unfold reconcile_student.
  destruct (find_matching_name _ (dict_keys form)) as [fm|]; simpl; [|done].
  destruct (find_matching_name _ (dict_keys meet)) as [mm|]; simpl; [|done].
  destruct (truthy_match mm).
  - destruct (dict_get meet _); simpl; [|done].
    intros [= <-]. by repeat case_match.
  - simpl. intros [= <-]. by repeat case_match.
Qed.

(** On a student still marked absent, the loop body leaves the mark of
    the decision rule. *)
Lemma reconcile_student_decision (form : dict pystr) (meet : dict float)
    (s s' : student float) :
  asistencia s = py "F" →
  reconcile_student form meet min_required_hours s = Ok s' →
  asistencia s' =
    if en_formulario s' && fge (horas_meet s') min_required_hours
    then py "A" else py "F".
Proof.
  intros HF. unfold reconcile_student.
  destruct (find_matching_name _ (dict_keys form)) as [fm|]; simpl; [|done].
  destruct (find_matching_name _ (dict_keys meet)) as [mm|]; simpl; [|done].
  destruct (truthy_match mm).
  - destruct (dict_get meet _); simpl; [|done].
    intros [= <-]. repeat case_match; simpl in *; congruence.
  - simpl. intros [= <-]. repeat case_match; simpl in *; congruence.
Qed.

(** The loop over a list of distinct positions: the mappings and the
    length of the list are as before, a student at a position of the
    list is the loop body's result on the student that stood there, and
    any other student is as before. *)
Lemma reconcile_from_spec (positions : list nat) (st st' : store float) :
  NoDup positions →
  reconcile_from min_required_hours positions st = Ok st' →
  form_attendees st' = form_attendees st
  ∧ meet_attendance st' = meet_attendance st
  ∧ length (official_students st') = length (official_students st)
  ∧ ∀ i s, official_students st !! i = Some s →
      if decide (i ∈ positions)
      then ∃ s', official_students st' !! i = Some s'
             ∧ reconcile_student (form_attendees st) (meet_attendance st)
                 min_required_hours s = Ok s'
      else official_students st' !! i = Some s.
Proof.
  intros Hnd. revert st.
  induction Hnd as [|i ps Hi Hps IH]; intros st; simpl.
  - intros [= <-]. by split_and!.
  - unfold reconcile_at.
    destruct (official_students st !! i) as [si|] eqn:Ei; simpl.
    + destruct (reconcile_student _ _ _ si) as [si'|] eqn:Er; simpl; [|done].
      intros Hrest. destruct (IH _ Hrest) as (Hf & Hm & Hlen & Hst).
      simpl in *. rewrite length_insert in Hlen.
      split_and!; try done. intros j s Hs.
      destruct (decide (j = i)) as [->|Hne].
      * rewrite decide_True by apply list_elem_of_here.
        assert (s = si) as -> by congruence.
        specialize (Hst i si'). rewrite decide_False in Hst by done.
        exists si'. split; [|done]. apply Hst.
        apply list_lookup_insert_eq. by eapply lookup_lt_Some.
      * specialize (Hst j s).
        rewrite list_lookup_insert_ne in Hst by done.
        specialize (Hst Hs).
        destruct (decide (j ∈ ps)) as [Hin|Hnotin].
        -- rewrite decide_True by by apply list_elem_of_further. done.
        -- rewrite decide_False; [done|].
           intros [?|?]%elem_of_cons; done.
    + intros Hrest. destruct (IH _ Hrest) as (Hf & Hm & Hlen & Hst).
      split_and!; try done. intros j s Hs. specialize (Hst j s Hs).
      destruct (decide (j ∈ ps)) as [Hin|Hnotin].
      * rewrite decide_True by by apply list_elem_of_further. done.
      * rewrite decide_False; [done|].
        intros [->|?]%elem_of_cons; [congruence|done].
Qed.

(** The whole loop: every student is replaced by the loop body's result
    on it. *)
Lemma reconcile_spec (st st' : store float) :
  reconcile min_required_hours st = Ok st' →
  form_attendees st' = form_attendees st
  ∧ meet_attendance st' = meet_attendance st
  ∧ length (official_students st') = length (official_students st)
  ∧ ∀ i s, official_students st !! i = Some s →
      ∃ s', official_students st' !! i = Some s'
        ∧ reconcile_student (form_attendees st) (meet_attendance st)
            min_required_hours s = Ok s'.
Proof.
  intros Hr. unfold reconcile in Hr.
  destruct (reconcile_from_spec _ _ _ (NoDup_seq _ _) Hr)
    as (Hf & Hm & Hlen & Hst).
  split_and!; try done. intros i s Hs. specialize (Hst i s Hs).
  rewrite decide_True in Hst; [done|].
  apply elem_of_seq. apply lookup_lt_Some in Hs. lia.
Qed.

End Reconcile.

(** The students of the official list start absent, unregistered and
    with no hours. *)
Lemma load_official_initial `{Unicode} `{PyFloat} (rows : list row)
    (s : student float) :
  s ∈ load_official rows →
  asistencia s = py "F" ∧ en_formulario s = false ∧ horas_meet s = fzero.
Proof.
  unfold load_official. rewrite list_elem_of_omap.
  intros (r & _ & Hr). unfold official_entry in Hr.
  repeat case_match; simplify_eq; done.
Qed.

(** The loop body returns on a student whose normalized name is empty or
    has a word. *)
Lemma reconcile_student_returns `{PyFloat} (form : dict pystr)
    (meet : dict float) (min_required_hours : float) (s : student float) :
  nombre_normalizado s = [] ∨ has_word (nombre_normalizado s) →
  ∃ s', reconcile_student form meet min_required_hours s = Ok s'.
Proof.
  intros Hs. unfold reconcile_student.
  destruct (find_matching_name_returns _ (dict_keys form) Hs) as [fm ->].
  destruct (find_matching_name_returns _ (dict_keys meet) Hs) as [mm Hmm].
  rewrite Hmm. simpl.
  destruct mm as [[|c m]|]; simpl; try by eexists.
  apply find_matching_name_member in Hmm as [Hin _].
  apply dict_get_key in Hin as [h ->]. by eexists.
Qed.

(** The loop returns when every normalized name of the list is empty or
    has a word. *)
Lemma reconcile_returns `{PyFloat} (min_required_hours : float) (st : store float) :
  (∀ s, s ∈ official_students st →
     nombre_normalizado s = [] ∨ has_word (nombre_normalizado s)) →
  ∃ st', reconcile min_required_hours st = Ok st'.
Proof.
  unfold reconcile. generalize (seq 0 (length (official_students st))).
  intros positions. revert st.
  induction positions as [|i ps IH]; intros st Hst; simpl; [by eexists|].
  unfold reconcile_at.
  destruct (official_students st !! i) as [s|] eqn:Ei; simpl; [|by apply IH].
  destruct (reconcile_student_returns (form_attendees st) (meet_attendance st)
              min_required_hours s) as [s' Hs'].
  { by eapply Hst, list_elem_of_lookup_2. }
  rewrite Hs'. simpl. apply IH. simpl. intros x Hx.
  apply list_elem_of_lookup in Hx as [j Hj].
  destruct (decide (i = j)) as [<-|Hne].
  - rewrite list_lookup_insert_eq in Hj by by eapply lookup_lt_Some.
    injection Hj as <-.
    apply reconcile_student_frame in Hs' as (_ & _ & _ & ->).
    by eapply Hst, list_elem_of_lookup_2.
  - rewrite list_lookup_insert_ne in Hj by done.
    by eapply Hst, list_elem_of_lookup_2.
Qed.

(** ** The reconciliation: C9 and C1 *)

(** C9. The reconciliation loop returns whenever every normalized name
    of the list is empty or has a word; and after it the form and Meet
    mappings are the ones it started with, the list of students has the
    length it had, and the student at each position has the surnames,
    given names, full name and normalized name of the student that stood
    there: the loop writes the fields [asistencia], [en_formulario] and
    [horas_meet] only, and adds, removes or moves no student. *)
Theorem reconcile_frame `{F : PyFloat} (min_required_hours : float)
    (st : store float) :
  ((∀ s, s ∈ official_students st →
      nombre_normalizado s = [] ∨ has_word (nombre_normalizado s)) →
   ∃ st', reconcile min_required_hours st = Ok st')
  ∧ ∀ st', reconcile min_required_hours st = Ok st' →
      form_attendees st' = form_attendees st
      ∧ meet_attendance st' = meet_attendance st
      ∧ length (official_students st') = length (official_students st)
      ∧ ∀ i s, official_students st !! i = Some s →
          ∃ s', official_students st' !! i = Some s'
            ∧ apellidos s' = apellidos s ∧ nombres s' = nombres s
            ∧ nombre_completo s' = nombre_completo s
            ∧ nombre_normalizado s' = nombre_normalizado s.
Proof.
  split; [apply reconcile_returns|]. intros st' Hr.
  destruct (reconcile_spec _ _ _ Hr) as (Hf & Hm & Hlen & Hst).
  split_and!; try done. intros i s Hs.
  destruct (Hst i s Hs) as (s' & Hs' & Hrs). exists s'.
  split; [done|]. by eapply reconcile_student_frame.
Qed.

(** C1. The reconciliation loop on the students of the official list
    returns whenever every normalized name of the list is empty or has a
    word; and after it every student is marked present ([A]) if and only
    if the student is registered in the form and the hours in the Meet
    reach the minimum, and is marked absent ([F]) in every other case. So
    a student registered in the form with too few hours is absent, and so
    is a student with enough hours who is not registered. *)
Theorem attendance_decision `{U : Unicode} `{F : PyFloat}
    (official_rows : list row)
    (form : dict pystr) (meet : dict float) (min_required_hours : float) :
  ((∀ s, s ∈ load_official official_rows →
      nombre_normalizado s = [] ∨ has_word (nombre_normalizado s)) →
   ∃ st', reconcile min_required_hours
            (Store (load_official official_rows) form meet) = Ok st')
  ∧ ∀ st', reconcile min_required_hours
             (Store (load_official official_rows) form meet) = Ok st' →
      ∀ s, s ∈ official_students st' →
        (asistencia s = py "A"
         ↔ en_formulario s = true
           ∧ fge (horas_meet s) min_required_hours = true)
        ∧ (asistencia s = py "F"
           ↔ ¬ (en_formulario s = true
                ∧ fge (horas_meet s) min_required_hours = true))
        ∧ (en_formulario s = true →
           fge (horas_meet s) min_required_hours = false →
           asistencia s = py "F")
        ∧ (en_formulario s = false → asistencia s = py "F").
Proof.
  split; [apply (reconcile_returns _ (Store _ form meet))|].
  intros st' Hr s' Hs'.
  destruct (reconcile_spec _ _ _ Hr) as (_ & _ & Hlen & Hst). simpl in *.
  apply list_elem_of_lookup in Hs' as [i Hi].
  destruct (lookup_lt_is_Some_2 (load_official official_rows) i) as [s Hs].
  { rewrite <- Hlen. by eapply lookup_lt_Some. }
  destruct (Hst i s Hs) as (s'' & Hs'' & Hrs).
  assert (s'' = s') as -> by congruence.
  apply reconcile_student_decision in Hrs.
  2:{ eapply load_official_initial, list_elem_of_lookup_2, Hs. }
  rewrite Hrs.
  destruct (en_formulario s'), (fge (horas_meet s') min_required_hours);
    simpl; split_and!; try done; try (split; [done|by intros []]);
    try (split; [by intros ? []|done]); intuition congruence.
Qed.

(** ** The reconciliation: scenarios *)

(** C1 on the three students of the scenario, four hours required: Ana
    Garcia is in the form and stayed 4.5 hours, Luis Lopez is in the form
    and stayed 3 h 50 min, Eva Perez stayed 5 hours and is not in the
    form. Only the first is marked present. *)
Lemma attendance_decision_witness :
  load_meet [0; 1]%nat 3 meet_rows = Ok scenario_meet
  ∧ ∃ st',
      reconcile (Finite 4)
        (Store (load_official roster_rows) (load_form 2 form_rows)
           scenario_meet)
      = Ok st'
      ∧ asistencia <$> official_students st' = [py "A"; py "F"; py "F"]
      ∧ en_formulario <$> official_students st' = [true; true; false]
      ∧ horas_meet <$> official_students st'
        = [Finite (9 # 2); Finite (23 # 6); Finite 5]
      ∧ ∀ s, s ∈ official_students st' →
          asistencia s = py "A"
          ↔ en_formulario s = true ∧ fge (horas_meet s) (Finite 4) = true.
Proof.
  split; [by vm_compute|].
  let r := eval vm_compute in
    (reconcile (Finite 4)
       (Store (load_official roster_rows) (load_form 2 form_rows)
          scenario_meet)) in
  match r with Ok ?st => pose (st' := st) end.
  assert (reconcile (Finite 4)
            (Store (load_official roster_rows) (load_form 2 form_rows)
               scenario_meet) = Ok st') as Hr by (vm_compute; reflexivity).
  exists st'. split; [exact Hr|].
  split; [reflexivity|]. split; [reflexivity|]. split; [reflexivity|].
  intros s Hs.
  apply (proj2 (attendance_decision (F := exact_float) roster_rows _ _
                  (Finite 4)) _ Hr s Hs).
Defined.

(** C9 on the scenario: the loop leaves the two mappings and the three
    names as they were. *)
Lemma reconcile_frame_witness :
  ∃ st',
    reconcile (Finite 4)
      (Store (load_official roster_rows) (load_form 2 form_rows)
         scenario_meet)
    = Ok st'
    ∧ form_attendees st' = load_form 2 form_rows
    ∧ meet_attendance st' = scenario_meet
    ∧ length (official_students st') = 3%nat
    ∧ nombre_completo <$> official_students st'
      = [py "GARCIA ANA"; py "LOPEZ LUIS"; py "PEREZ EVA"].
Proof.
  let r := eval vm_compute in
    (reconcile (Finite 4)
       (Store (load_official roster_rows) (load_form 2 form_rows)
          scenario_meet)) in
  match r with Ok ?st => pose (st' := st) end.
  assert (reconcile (Finite 4)
            (Store (load_official roster_rows) (load_form 2 form_rows)
               scenario_meet) = Ok st') as Hr by (vm_compute; reflexivity).
  exists st'. split; [exact Hr|].
  destruct (proj2 (reconcile_frame (F := exact_float) (Finite 4) _) _ Hr)
    as (Hf & Hm & Hlen & _).
  split; [exact Hf|]. split; [exact Hm|]. split; [exact Hlen|reflexivity].
Defined.

(** C10 on the failing input. A student whose surnames and given names
    are each a period has a normalized name of one space, and a form entry
    that is a period has the empty name as its key: neither has a word,
    the matcher is called with that target and that list, and it raises
    [ZeroDivisionError], where the specification has it return no match
    or a name of the list. Nothing in [process_attendance] catches it. *)
Theorem process_attendance_zero_division :
  nombre_normalizado <$> load_official period_roster_rows = [py " "]
  ∧ dict_keys (load_form 2 period_form_rows) = [[]]
  ∧ find_matching_name (py " ") [[]] = Raise ZeroDivisionError
  ∧ process_attendance period_roster_rows period_form_rows meet_rows
      2 [0; 1]%nat 3 (Finite 4)
    = Raise ZeroDivisionError.
Proof. by vm_compute. Qed.


(** * Further properties *)

(** ** The matcher *)

(** The quotient of two counts, the second not zero. *)
Lemma ratio_facts (c n : nat) :
  let q := (inject_Z (Z.of_nat c) / inject_Z (Z.of_nat (S n)))%Q in
  (0 <= q)%Q ∧ ((c ≤ S n)%nat → (q <= 1)%Q)
  ∧ ((q == 1)%Q ↔ c = S n) ∧ ((q == 0)%Q ↔ c = 0%nat)
  ∧ ((1 # 2 < q)%Q ↔ (S n < 2 * c)%nat).
Proof.
  intros q. unfold q, Qdiv, Qmult, Qinv, Qle, Qlt, Qeq, inject_Z.
  simpl. rewrite !Pos.mul_1_l, !Zpos_P_of_succ_nat.
  repeat split; lia.
Qed.

Lemma size_intersection_max (a b : gset pystr) :
  (size (a ∩ b) ≤ Nat.max (size a) (size b))%nat
  ∧ (size (a ∩ b) = Nat.max (size a) (size b) → a = b).
Proof.
  pose proof (intersection_subseteq_l a b) as Sa.
  pose proof (intersection_subseteq_r a b) as Sb.
  pose proof (subseteq_size _ _ Sa) as Ha.
  pose proof (subseteq_size _ _ Sb) as Hb.
  split; [lia|]. intros Heq.
  assert (a ∩ b = a) as Ea by (apply set_subseteq_size_eq; [done|lia]).
  assert (a ∩ b = b) as Eb by (apply set_subseteq_size_eq; [done|lia]).
  congruence.
Qed.

(** X1. On a target that has a word and is not itself in the list, the
    matcher returns: with no match when no name of the list scores above
    one half, and otherwise with the first name, in the order of the
    list, whose score is the highest of the list. *)
Theorem matcher_first_best (target : pystr) (name_list : list pystr) :
  has_word target → target ∉ name_list →
  ∃ r, find_matching_name target name_list = Ok r
    ∧ ((r = None
        ∧ ∀ n, n ∈ name_list → (SpecWords.similarity target n <= 1 # 2)%Q)
       ∨ ∃ l1 m l2, name_list = l1 ++ m :: l2 ∧ r = Some m
           ∧ (1 # 2 < SpecWords.similarity target m)%Q
           ∧ (∀ n, n ∈ l1 →
                (SpecWords.similarity target n < SpecWords.similarity target m)%Q)
           ∧ (∀ n, n ∈ l2 →
                (SpecWords.similarity target n <= SpecWords.similarity target m)%Q)).
Proof. apply find_matching_name_best. Qed.

(** X1 at a target of three words and a list in which two names score
    2/3: the first of them is returned. *)
Lemma matcher_first_best_witness :
  find_matching_name (py "JOHN SMITH GARCIA")
    [py "JOHN DOE"; py "SMITH GARCIA"; py "GARCIA JOHN"]
  = Ok (Some (py "SMITH GARCIA"))
  ∧ ∃ r, find_matching_name (py "JOHN SMITH GARCIA")
           [py "JOHN DOE"; py "SMITH GARCIA"; py "GARCIA JOHN"] = Ok r
      ∧ ((r = None
          ∧ ∀ n, n ∈ [py "JOHN DOE"; py "SMITH GARCIA"; py "GARCIA JOHN"] →
              (SpecWords.similarity (py "JOHN SMITH GARCIA") n <= 1 # 2)%Q)
         ∨ ∃ l1 m l2,
             [py "JOHN DOE"; py "SMITH GARCIA"; py "GARCIA JOHN"]
             = l1 ++ m :: l2 ∧ r = Some m
             ∧ (1 # 2 < SpecWords.similarity (py "JOHN SMITH GARCIA") m)%Q
             ∧ (∀ n, n ∈ l1 →
                  (SpecWords.similarity (py "JOHN SMITH GARCIA") n
                   < SpecWords.similarity (py "JOHN SMITH GARCIA") m)%Q)
             ∧ (∀ n, n ∈ l2 →
                  (SpecWords.similarity (py "JOHN SMITH GARCIA") n
                   <= SpecWords.similarity (py "JOHN SMITH GARCIA") m)%Q)).
Proof.
  split; [by vm_compute|].
  apply matcher_first_best.
  - by vm_compute.
  - intros Hin. vm_compute in Hin.
    repeat (apply elem_of_cons in Hin as [Hin|Hin]; [discriminate Hin|]).
    by apply elem_of_nil in Hin.
Defined.

(** X2. Whatever the matcher returns as a match is a name of the list;
    and a match that is not the target itself has a word in common with
    the target. *)
Theorem matcher_match_in_list (target : pystr) (name_list : list pystr)
    (m : pystr) :
  find_matching_name target name_list = Ok (Some m) →
  m ∈ name_list
  ∧ (m ≠ target → ∃ w, w ∈ split target ∧ w ∈ split m).
Proof. apply find_matching_name_member. Qed.

(** X2 at the match of [GARCIA ANA] in a form of two names. *)
Lemma matcher_match_in_list_witness :
  py "ANA GARCIA" ∈ [py "LUIS LOPEZ"; py "ANA GARCIA"]
  ∧ (py "ANA GARCIA" ≠ py "GARCIA ANA" →
     ∃ w, w ∈ split (py "GARCIA ANA") ∧ w ∈ split (py "ANA GARCIA")).
Proof.
  apply (matcher_match_in_list (py "GARCIA ANA")
           [py "LUIS LOPEZ"; py "ANA GARCIA"]).
  by vm_compute.
Defined.

(** The loop for a target without word: it raises at the first name
    without word, and otherwise keeps the match it started from. *)
Lemma find_loop_no_word (target_words : gset pystr) (name_list : list pystr)
    (best_match : option pystr) (best_score : Q) :
  size target_words = 0%nat →
  find_loop target_words name_list best_match best_score
  = if bool_decide (Exists (λ n, ¬ has_word n) name_list)
    then Raise ZeroDivisionError else Ok best_match.
Proof.
  intros Ht. induction name_list as [|n rest IH]; cbn [find_loop].
  - rewrite bool_decide_eq_false_2; [done|]. by intros ?%Exists_nil.
  - unfold score. rewrite Ht.
    assert (size (target_words ∩ words n) = 0%nat) as ->.
    { pose proof (subseteq_size _ _ (intersection_subseteq_l target_words
                                       (words n))). lia. }
    destruct (size (words n)) as [|k] eqn:Ek; cbn [Nat.max mbind result_bind].
    + rewrite bool_decide_eq_true_2; [done|]. apply Exists_cons_hd.
      rewrite words_has_word. lia.
    + replace (Qgt_bool _ (1 # 2)) with false.
      2:{ symmetry. apply not_true_iff_false. rewrite Qgt_bool_iff.
          pose proof (ratio_facts 0 k) as (_ & _ & _ & _ & Hhalf).
          simpl in Hhalf. rewrite Hhalf. lia. }
      rewrite andb_false_r, IH.
      assert (has_word n) as Hn by (apply words_has_word; lia).
      destruct (bool_decide (Exists _ rest)) eqn:Eb.
      * apply bool_decide_eq_true in Eb.
        rewrite bool_decide_eq_true_2; [done|]. by apply Exists_cons_tl.
      * apply bool_decide_eq_false in Eb.
        rewrite bool_decide_eq_false_2; [done|].
        intros [?|?]%Exists_cons; done.
Qed.

(** X3. The matcher raises nothing but [ZeroDivisionError], and raises
    it exactly when the target is not empty, is not in the list, has no
    word and some name of the list has no word either. A target of
    whitespace only that is not in a list of names with words gets no
    match. *)
Theorem matcher_raises (target : pystr) (name_list : list pystr) :
  (∀ e, find_matching_name target name_list = Raise e ↔
     e = ZeroDivisionError ∧ (target ≠ []) ∧ (target ∉ name_list)
     ∧ ¬ has_word target ∧ ∃ n, n ∈ name_list ∧ ¬ has_word n)
  ∧ (target ∉ name_list → ¬ has_word target →
     (∀ n, n ∈ name_list → has_word n) →
     find_matching_name target name_list = Ok None).
Proof.
  assert (target ≠ [] → target ∉ name_list → ¬ has_word target →
    find_matching_name target name_list
    = if bool_decide (Exists (λ n, ¬ has_word n) name_list)
      then Raise ZeroDivisionError else Ok None) as Hblank.
  { intros Hne Hnotin Hw. unfold find_matching_name.
    destruct target as [|c t] eqn:Et; [done|]. rewrite <- Et in *.
    rewrite bool_decide_eq_false_2 by done.
    apply find_loop_no_word.
    destruct (size (words target)) eqn:Es; [done|].
    exfalso. apply Hw, words_has_word. lia. }
  split.
  - intros e. split.
    + intros Hr.
      destruct (decide (target = [])) as [->|Hne]; [done|].
      destruct (decide (target ∈ name_list)) as [Hin|Hnotin].
      { unfold find_matching_name in Hr. destruct target; [done|].
        by rewrite bool_decide_eq_true_2 in Hr. }
      destruct (decide (has_word target)) as [Hw|Hw].
      { destruct (find_matching_name_returns target name_list (or_intror Hw))
          as [r Hok]. congruence. }
      rewrite Hblank in Hr by done.
      case_bool_decide as Hex; [|done].
      injection Hr as <-. apply Exists_exists in Hex. done.
    + intros (-> & Hne & Hnotin & Hw & (n & Hn & Hnw)).
      rewrite Hblank by done. rewrite bool_decide_eq_true_2; [done|].
      apply Exists_exists. eauto.
  - intros Hnotin Hw Hall.
    destruct (decide (target = [])) as [->|Hne]; [done|].
    rewrite Hblank by done. rewrite bool_decide_eq_false_2; [done|].
    intros (n & Hn & Hnw)%Exists_exists. by apply Hnw, Hall.
Qed.


(** X4. The score of two sets of words does not depend on their order;
    when it is defined it lies between 0 and 1, is 1 exactly for equal
    sets and 0 exactly for sets without common word. *)
Theorem score_facts (a b : gset pystr) (q : Q) :
  score a b = Ok q →
  score b a = Ok q
  ∧ (0 <= q <= 1)%Q
  ∧ ((q == 1)%Q ↔ a = b)
  ∧ ((q == 0)%Q ↔ a ∩ b = ∅).
Proof.
  unfold score. rewrite (comm_L (∩) b a), (Nat.max_comm (size b)).
  destruct (Nat.max (size a) (size b)) as [|n] eqn:Ed; [done|].
  intros [= <-].
  pose proof (ratio_facts (size (a ∩ b)) n) as (H0 & H1 & Hone & Hzero & _).
  destruct (size_intersection_max a b) as [Hle Heq]. rewrite Ed in Hle, Heq.
  split_and!; [done|done|by apply H1| |].
  - rewrite Hone. split; [done|]. intros ->.
    rewrite (idemp_L (∩)), <- Ed. lia.
  - rewrite Hzero. split.
    + intros Hs. by apply leibniz_equiv, size_empty_iff.
    + intros ->. apply size_empty.
Qed.

(** X4 at [JOHN SMITH] and [JOHN DOE]. *)
Lemma score_facts_witness :
  score (words (py "JOHN DOE")) (words (py "JOHN SMITH")) = Ok (1 # 2)
  ∧ (0 <= 1 # 2 <= 1)%Q
  ∧ ((1 # 2 == 1)%Q ↔ words (py "JOHN SMITH") = words (py "JOHN DOE"))
  ∧ ((1 # 2 == 0)%Q ↔ words (py "JOHN SMITH") ∩ words (py "JOHN DOE") = ∅).
Proof.
  apply (score_facts (words (py "JOHN SMITH")) (words (py "JOHN DOE"))).
  by vm_compute.
Defined.

Lemma similarity_same_words (target n : pystr) :
  has_word target → words n = words target →
  (SpecWords.similarity target n == 1)%Q.
Proof.
  intros Hw Hn. unfold SpecWords.similarity. rewrite Hn.
  rewrite (idemp_L (∩)), Nat.max_id.
  apply words_has_word in Hw.
  destruct (size (words target)) as [|k]; [done|].
  by apply (ratio_facts (S k) k).
Qed.

Lemma similarity_one (target m : pystr) :
  has_word target → (1 <= SpecWords.similarity target m)%Q →
  words m = words target.
Proof.
  intros Hw Hq. unfold SpecWords.similarity in Hq.
  apply words_has_word in Hw.
  destruct (size_intersection_max (words target) (words m)) as [Hle Heq].
  destruct (Nat.max (size (words target)) (size (words m))) as [|k] eqn:Ed;
    [lia|].
  pose proof (ratio_facts (size (words target ∩ words m)) k)
    as (_ & H1 & Hone & _).
  symmetry. apply Heq, Hone. apply Qle_antisym; [by apply H1|done].
Qed.

(** X5. The order of the words does not matter to the matcher: when the
    target has a word, is not itself in the list, and some name of the
    list has the same set of words, the matcher returns a name of the
    list that has the same set of words as the target (the first such
    name). *)
Theorem matcher_same_words (target n : pystr) (name_list : list pystr) :
  has_word target → target ∉ name_list →
  n ∈ name_list → words n = words target →
  ∃ l1 m l2, name_list = l1 ++ m :: l2
    ∧ find_matching_name target name_list = Ok (Some m)
    ∧ words m = words target
    ∧ ∀ x, x ∈ l1 → words x ≠ words target.
Proof.
  intros Hw Hnotin Hn Hwords.
  pose proof (similarity_same_words target n Hw Hwords) as Hone.
  destruct (find_matching_name_best target name_list Hw Hnotin)
    as (r & Hr & [[-> Hall]|(l1 & m & l2 & -> & -> & Hm & Hl1 & Hl2)]).
  { specialize (Hall n Hn). rewrite Hone in Hall. by vm_compute in Hall. }
  assert (1 <= SpecWords.similarity target m)%Q as Hge.
  { rewrite <- Hone.
    apply elem_of_app in Hn as [Hn|[->|Hn]%elem_of_cons].
    - by apply Qlt_le_weak, Hl1.
    - apply Qle_refl.
    - by apply Hl2. }
  exists l1, m, l2. split_and!; try done.
  - by apply similarity_one.
  - intros x Hx Hxw. specialize (Hl1 x Hx).
    rewrite (similarity_same_words target x Hw Hxw) in Hl1.
    assert (SpecWords.similarity target m == 1)%Q as Hm1.
    { apply similarity_same_words; [done|]. by apply similarity_one. }
    rewrite Hm1 in Hl1. by vm_compute in Hl1.
Qed.

(** X5 at [GARCIA ANA] and a form that has [ANA GARCIA]. *)
Lemma matcher_same_words_witness :
  ∃ l1 m l2,
    [py "LUIS LOPEZ"; py "ANA GARCIA"; py "GARCIA  ANA"] = l1 ++ m :: l2
    ∧ find_matching_name (py "GARCIA ANA")
        [py "LUIS LOPEZ"; py "ANA GARCIA"; py "GARCIA  ANA"] = Ok (Some m)
    ∧ words m = words (py "GARCIA ANA")
    ∧ ∀ x, x ∈ l1 → words x ≠ words (py "GARCIA ANA").
Proof.
  apply (matcher_same_words (py "GARCIA ANA") (py "ANA GARCIA")).
  - by vm_compute.
  - intros Hin. vm_compute in Hin.
    repeat (apply elem_of_cons in Hin as [Hin|Hin]; [discriminate Hin|]).
    by apply elem_of_nil in Hin.
  - apply list_elem_of_further, list_elem_of_here.
  - by vm_compute.
Defined.


(** ** The normalizer *)

Lemma sub_spaces_only_space (b : bool) (s : pystr) :
  Forall (λ c, isspace c = true → c = SPACE) (sub_spaces b s).
Proof.
  revert b. induction s as [|c s IH]; intros b; simpl; [constructor|].
  destruct (isspace c) eqn:Ec.
  - destruct b; [apply IH|]. constructor; [done|apply IH].
  - constructor; [congruence|apply IH].
Qed.

(** X6. A normalized name holds none of the six deleted characters, and
    no whitespace other than the plain space: tabs, line ends and the
    other Unicode blanks inside a name all come out as spaces. *)
Theorem normalize_name_alphabet `{Unicode} (name : option pystr) :
  Forall (λ c, is_special c = false ∧ (isspace c = true → c = SPACE))
    (normalize_name name).
Proof.
  destruct name as [[|c s]|]; [constructor| |constructor].
  unfold normalize_name. apply Forall_forall. intros x Hx.
  apply list_elem_of_In, filter_In in Hx as [Hx Hs]. split.
  - by apply negb_true_iff.
  - apply list_elem_of_In in Hx.
    exact (proj1 (Forall_forall _ _) (sub_spaces_only_space _ _) x Hx).
Qed.

Section StripBlanks.
Variable blank : N → bool.

Lemma lstrip_of_blanks (l s : pystr) :
  Forall (λ c, blank c = true) l →
  lstrip_of blank (l ++ s) = lstrip_of blank s.
Proof. induction 1 as [|c l Hc Hl IH]; simpl; [done|]. by rewrite Hc. Qed.

(** Blanks around a text do not change what stripping it gives. *)
Lemma strip_of_blanks (l s r : pystr) :
  Forall (λ c, blank c = true) l → Forall (λ c, blank c = true) r →
  strip_of blank (l ++ s ++ r) = strip_of blank s.
Proof.
  intros Hl Hr. unfold strip_of at 1.
  rewrite lstrip_of_blanks by done. fold (strip_of blank (s ++ r)).
  rewrite <- (strip_of_commute blank (s ++ r)).
  rewrite reverse_app, lstrip_of_blanks by by apply Forall_reverse.
  apply strip_of_commute.
Qed.
End StripBlanks.

(** X7. Whitespace around a name does not change its normalized name:
    the name with any whitespace before and after it normalizes as the
    name alone. *)
Theorem normalize_name_ignores_margins `{Unicode} (l s r : pystr) :
  Forall (λ c, isspace c = true) l → Forall (λ c, isspace c = true) r →
  normalize_name (Some (l ++ s ++ r)) = normalize_name (Some s).
Proof.
  intros Hl Hr.
  assert (∀ t, normalize_name (Some t)
               = sub_special (sub_spaces false (upper (strip t)))) as Hn.
  { intros [|c t]; [done|done]. }
  rewrite !Hn. unfold strip. by rewrite strip_of_blanks.
Qed.

(** X7 at [Ana Garcia] between a tab and a space and a line end. *)
Lemma normalize_name_ignores_margins_witness :
  normalize_name (Some ([9; 32] ++ py "Ana Garcia" ++ [10]))
  = normalize_name (Some (py "Ana Garcia")).
Proof.
  apply normalize_name_ignores_margins; by repeat constructor.
Defined.


(** ** The second pass of the normalizer *)

Lemma normalize_name_upper_case `{Unicode} (laws : upper_laws) (s : pystr) :
  Forall (λ d, upper_cp d = [d]) (normalize_name (Some s)).
Proof.
  destruct s as [|c s]; [by constructor|].
  unfold normalize_name, sub_special.
  assert (Forall (λ d, upper_cp d = [d])
            (sub_spaces false (upper (strip (c :: s))))) as Hall.
  { apply sub_spaces_Forall; [|by apply upper_all_fixed].
    by apply (upper_space laws). }
  apply Forall_forall. intros d Hd%list_elem_of_In%filter_In.
  destruct Hd as [Hd _]. apply list_elem_of_In in Hd.
  revert d Hd. by apply Forall_forall.
Qed.

Lemma normalize_name_special_free `{Unicode} (s : pystr) :
  special_free (normalize_name (Some s)).
Proof.
  destruct s as [|c s]; [by constructor|apply sub_special_special_free].
Qed.

(** X19. Given the laws of the upper-case table, a second pass of the
    normalizer changes a normalized name exactly when the first pass left
    a space at one of its ends or two spaces in a row, which only a
    deleted character next to whitespace does: on a name without any of
    the six deleted characters the second pass changes nothing, and on
    any name at all a third pass changes nothing. *)
Theorem normalize_name_second_pass `{Unicode} (laws : upper_laws)
    (s : pystr) :
  (normalize_name (Some (normalize_name (Some s))) = normalize_name (Some s)
   ↔ clean_head (normalize_name (Some s))
     ∧ single_spaced (normalize_name (Some s)))
  ∧ (special_free s →
     normalize_name (Some (normalize_name (Some s))) = normalize_name (Some s))
  ∧ normalize_name (Some (normalize_name (Some (normalize_name (Some s)))))
    = normalize_name (Some (normalize_name (Some s))).
Proof.
  assert (∀ t, special_free t →
    normalize_name (Some (normalize_name (Some t))) = normalize_name (Some t))
    as Hidem.
  { intros t Ht. apply normalize_name_fixpoint.
    by apply (normalize_name_normal laws). }
  split_and!.
  - split.
    + intros Hfix.
      pose proof (normalize_name_normal laws _ (normalize_name_special_free s))
        as Hn.
      rewrite Hfix in Hn. destruct Hn as (Hh & Hs & _). done.
    + intros [Hh Hs]. apply normalize_name_fixpoint.
      split_and!; [done|done| |].
      * by apply normalize_name_upper_case.
      * apply normalize_name_special_free.
  - apply Hidem.
  - apply Hidem, normalize_name_special_free.
Qed.

(** X19 at [O'Brien J.R.], which holds deleted characters, none of them
    next to whitespace on both sides: normalized once it is [OBRIEN JR],
    and it stays so. *)
Lemma normalize_name_second_pass_witness :
  normalize_name (Some (py "O'Brien J.R.")) = py "OBRIEN JR"
  ∧ normalize_name (Some (normalize_name (Some (py "O'Brien J.R."))))
    = normalize_name (Some (py "O'Brien J.R.")).
Proof.
  split; [reflexivity|].
  apply (proj1 (normalize_name_second_pass latin1_text_laws
                  (py "O'Brien J.R."))).
  assert (@normalize_name latin1_text (Some (py "O'Brien J.R."))
          = [79; 66; 82; 73; 69; 78; 32; 74; 82]) as -> by reflexivity.
  split.
  - by intros c [= <-].
  - cbn [single_spaced head].
    repeat match goal with
    | |- _ ∧ _ => split
    | |- isspace _ = true → _ =>
        let Hsp := fresh in
        intros Hsp; vm_compute in Hsp; try discriminate Hsp; clear Hsp
    | |- ∃ d, _ => eexists
    | |- _ = _ => reflexivity
    | |- True => exact I
    end.
Defined.

(** ** The duration conversion *)

(** X8. A duration text that is not of the shape [H h M min] loses what
    it does not place: a text without space converts to 0 hours; so does
    a text of two pieces whose second piece holds no [h], such as
    [30 min] or [4h 30min]; and [H h] alone converts to [H] hours. *)
Theorem convert_duration_short_texts `{PyFloat} :
  (∀ A, SPACE ∉ A →
     convert_duration_to_hours (Some A)
     = Ok (fadd fzero (fdiv fzero (float_of_int 60))))
  ∧ (∀ A B, SPACE ∉ A → SPACE ∉ B → contains B (py "h") = false →
       convert_duration_to_hours (Some (A ++ [SPACE] ++ B))
       = Ok (fadd fzero (fdiv fzero (float_of_int 60))))
  ∧ (∀ A h, SPACE ∉ A → float_of_str A = Some h →
       convert_duration_to_hours (Some (A ++ py " h"))
       = Ok (fadd h (fdiv fzero (float_of_int 60)))).
Proof.
  split_and!.
  - intros A HA. unfold convert_duration_to_hours.
    by rewrite (split_on_last_piece _ _ HA).
  - intros A B HA HB Hh. unfold convert_duration_to_hours.
    change (A ++ [SPACE] ++ B) with (A ++ SPACE :: B).
    rewrite (split_on_piece _ _ _ HA), (split_on_last_piece _ _ HB).
    cbn [length lookup_total list_lookup_total]. rewrite Hh.
    by rewrite andb_false_r.
  - intros A h HA Hh. unfold convert_duration_to_hours.
    change (A ++ py " h") with (A ++ SPACE :: py "h").
    rewrite (split_on_piece _ _ _ HA).
    rewrite (split_on_last_piece SPACE (py "h")) by not_in_text.
    simpl. unfold to_float. by rewrite Hh.
Qed.

(** X8 at [30 min] and [4h 30min]: no hours. *)
Lemma convert_duration_short_texts_witness :
  convert_duration_to_hours (Some (py "30 min")) = Ok (Finite 0)
  ∧ convert_duration_to_hours (Some (py "4h 30min")) = Ok (Finite 0).
Proof.
  split.
  - refine (proj1 (proj2 convert_duration_short_texts) (py "30") (py "min")
              _ _ eq_refl); not_in_text.
  - refine (proj1 (proj2 convert_duration_short_texts) (py "4h") (py "30min")
              _ _ eq_refl); not_in_text.
Defined.

(** The conversion raises nothing but [ValueError], and raises it
    exactly when [float] rejects the number of a part whose unit is
    recognised. *)
Lemma convert_duration_raises `{PyFloat} (text : pystr) (e : exn) :
  convert_duration_to_hours (Some text) = Raise e ↔
  e = ValueError
  ∧ ((2 ≤ length (split_on SPACE text))%nat
     ∧ contains (split_on SPACE text !!! 1%nat) (py "h") = true
     ∧ float_of_str (split_on SPACE text !!! 0%nat) = None
     ∨ (4 ≤ length (split_on SPACE text))%nat
       ∧ contains (split_on SPACE text !!! 3%nat) (py "min") = true
       ∧ float_of_str (split_on SPACE text !!! 2%nat) = None).
Proof.
  unfold convert_duration_to_hours, to_float.
  set (parts := split_on SPACE text).
  destruct (bool_decide (2 ≤ length parts)%nat) eqn:E2;
    [apply bool_decide_eq_true in E2|apply bool_decide_eq_false in E2];
  destruct (bool_decide (4 ≤ length parts)%nat) eqn:E4;
    [apply bool_decide_eq_true in E4|apply bool_decide_eq_false in E4
    |apply bool_decide_eq_true in E4|apply bool_decide_eq_false in E4];
  destruct (contains (parts !!! 1%nat) (py "h")) eqn:Eh;
  destruct (contains (parts !!! 3%nat) (py "min")) eqn:Em;
  destruct (float_of_str (parts !!! 0%nat)) eqn:F0;
  destruct (float_of_str (parts !!! 2%nat)) eqn:F2;
  simpl; split; try (intros [= <-]); try done;
  try (split; [done|]); try (intros [-> _]; done);
  try (by left); try (by right);
  try (intros [_ [(?&?&?)|(?&?&?)]]; done || lia).
Qed.


(** ** The Meet log *)

Lemma keep_all_in_range (name_cols : list nat) (n : nat) :
  (max_list name_cols < n)%nat →
  List.filter (λ i, bool_decide (i < n)%nat) name_cols = name_cols.
Proof.
  induction name_cols as [|i l IH]; simpl; [done|]. intros Hmax.
  rewrite bool_decide_eq_true_2 by lia. rewrite IH by lia. done.
Qed.

Lemma meet_entry_unguarded `{Unicode} `{PyFloat} (name_cols : list nat)
    (duration_col : nat) (r : row) :
  meet_entry name_cols duration_col r =
    if bool_decide (length r ≤ Nat.max (max_list name_cols) duration_col)%nat
    then Ok None
    else
      let name :=
        join [SPACE]
          (List.filter truthy ((λ i, strip (r !!! i)) <$> name_cols)) in
      if negb (truthy name)
         || startswith (upper name) (py "MONITOR")
         || startswith (upper name) (py "SUPERVISOR")
      then Ok None
      else
        hours ← convert_duration_to_hours (Some (r !!! duration_col));
        Ok (Some (normalize_name (Some name), hours)).
Proof.
  unfold meet_entry. case_bool_decide as Hlen; [done|].
  rewrite keep_all_in_range by lia.
  by rewrite (bool_decide_eq_true_2 (duration_col < length r)%nat) by lia.
Qed.

(** X9. In the loop over the Meet log the two tests [i < len(row)] never
    fail: a row that passes the length test has every name column and
    the duration column, so its name is built from all the name columns,
    and when the row is kept its hours are those of its own duration
    cell, never of the fallback [0 h 0 min]. *)
Theorem meet_entry_in_range `{Unicode} `{PyFloat} (name_cols : list nat)
    (duration_col : nat) (r : row) (normalized_name : pystr) (hours : float) :
  meet_entry name_cols duration_col r = Ok (Some (normalized_name, hours)) →
  (∀ i, i ∈ name_cols → is_Some (r !! i))
  ∧ is_Some (r !! duration_col)
  ∧ normalized_name
    = normalize_name
        (Some (join [SPACE]
                 (List.filter truthy ((λ i, strip (r !!! i)) <$> name_cols))))
  ∧ convert_duration_to_hours (Some (r !!! duration_col)) = Ok hours.
Proof.
  rewrite meet_entry_unguarded. case_bool_decide as Hlen; [done|].
  cbv zeta. destruct (_ || _); [done|].
  destruct (convert_duration_to_hours _) as [h|e]; simpl; [|done].
  intros [= <- <-]. split_and!; try done.
  - intros i Hi. apply lookup_lt_is_Some_2.
    pose proof (max_list_elem_of_le i name_cols Hi). lia.
  - apply lookup_lt_is_Some_2. lia.
Qed.

(** X9 at a row of the scenario. *)
Lemma meet_entry_in_range_witness :
  (∀ i, i ∈ [0; 1]%nat →
     is_Some ([py "Ana"; py "Garcia"; py "a@x.org"; py "4 h 30 min"] !! i))
  ∧ convert_duration_to_hours (Some (py "4 h 30 min")) = Ok (Finite (9 # 2)).
Proof.
  pose proof (meet_entry_in_range (H := latin1_text) (H0 := exact_float)
                [0; 1]%nat 3
                [py "Ana"; py "Garcia"; py "a@x.org"; py "4 h 30 min"]
                (py "ANA GARCIA") (Finite (9 # 2))) as Hw.
  destruct Hw as (Hcols & _ & _ & Hh); [by vm_compute|].
  split; [exact Hcols|exact Hh].
Defined.

(** X10. Whether a row of the Meet log is skipped (too short, no name,
    a monitor or a supervisor) does not depend on its duration cell, when
    that cell is not a name column: the row stays skipped whatever the
    cell reads, so a malformed duration in such a row raises nothing. *)
Theorem meet_entry_skip_ignores_duration `{Unicode} `{PyFloat}
    (name_cols : list nat) (duration_col : nat) (r : row) (d : pystr) :
  duration_col ∉ name_cols →
  meet_entry name_cols duration_col r = Ok None →
  meet_entry name_cols duration_col (<[duration_col := d]> r) = Ok None.
Proof.
  intros Hdc. rewrite !meet_entry_unguarded. unfold row in *.
  rewrite length_insert. case_bool_decide as Hlen; [done|].
  assert ((λ i, strip (<[duration_col := d]> r !!! i)) <$> name_cols
          = (λ i, strip (r !!! i)) <$> name_cols) as ->.
  { apply list_fmap_ext. intros _ i Hi%list_elem_of_lookup_2.
    rewrite list_lookup_total_insert_ne; [done|]. by intros ->. }
  cbv zeta. destruct (_ || _); [done|].
  by destruct (convert_duration_to_hours _).
Qed.

(** X10 at the row of a monitor whose duration cell is empty or
    unreadable. *)
Lemma meet_entry_skip_ignores_duration_witness :
  meet_entry [0; 1]%nat 3
    (<[3%nat := py "n/a h"]> [py "Monitor"; py "Sala 2"; py "m@x.org"; []])
  = Ok None.
Proof.
  apply meet_entry_skip_ignores_duration; [|by vm_compute].
  intros Hin. repeat (apply elem_of_cons in Hin as [Hin|Hin]; [done|]).
  by apply elem_of_nil in Hin.
Defined.

Lemma meet_entry_raises `{Unicode} `{PyFloat} (name_cols : list nat)
    (duration_col : nat) (r : row) (e : exn) :
  meet_entry name_cols duration_col r = Raise e → e = ValueError.
Proof.
  rewrite meet_entry_unguarded. case_bool_decide; [done|].
  cbv zeta. destruct (_ || _); [done|].
  destruct (convert_duration_to_hours _) as [h|e'] eqn:Ec; simpl; [done|].
  intros [= <-]. by apply convert_duration_raises in Ec as [-> _].
Qed.

Lemma meet_loop_raises `{Unicode} `{PyFloat} (name_cols : list nat)
    (duration_col : nat) (rows : list row) (d : dict float) :
  (∃ d', meet_loop name_cols duration_col d rows = Ok d'
         ∧ ∀ r, r ∈ rows → ∃ o, meet_entry name_cols duration_col r = Ok o)
  ∨ (meet_loop name_cols duration_col d rows = Raise ValueError
     ∧ ∃ r, r ∈ rows ∧ meet_entry name_cols duration_col r = Raise ValueError).
Proof.
  revert d. induction rows as [|r rows IH]; intros d; simpl.
  - left. exists d. split; [done|]. by intros r ?%elem_of_nil.
  - unfold meet_step.
    destruct (meet_entry name_cols duration_col r) as [o|e] eqn:Er; simpl.
    + destruct (IH (match o with
                    | Some (normalized_name, hours) =>
                        dict_set d normalized_name hours
                    | None => d
                    end)) as [(d' & Hd' & Hall)|(Hr & r' & Hr' & Hraise)].
      * left. exists d'. split; [done|].
        intros x [->|Hx]%elem_of_cons; [by exists o|by apply Hall].
      * right. split; [done|]. exists r'.
        split; [by apply list_elem_of_further|done].
    + apply meet_entry_raises in Er as Hv. subst e. right. split; [done|].
      exists r. split; [apply list_elem_of_here|done].
Qed.

(** X11. One unreadable duration abandons the whole run: steps 1 to 4
    return early, with no student processed, exactly when some row of
    the Meet log that is not skipped carries a number [float] rejects;
    the official list, the form and the other rows play no part. *)
Theorem process_attendance_abandoned `{Unicode} `{PyFloat}
    (official_rows form_rows meet_rows : list row) (name_col_index : nat)
    (name_cols : list nat) (duration_col : nat) (min_required_hours : float) :
  process_attendance official_rows form_rows meet_rows name_col_index
    name_cols duration_col min_required_hours = Ok None
  ↔ ∃ r, r ∈ meet_rows
      ∧ meet_entry name_cols duration_col r = Raise ValueError.
Proof.
  unfold process_attendance, load_meet.
  destruct (meet_loop_raises name_cols duration_col meet_rows [])
    as [(d' & -> & Hall)|(-> & Hex)].
  - split.
    + by destruct (reconcile _ _).
    + intros (r & Hr & Hraise). destruct (Hall r Hr) as [o Ho]. congruence.
  - done.
Qed.


(** ** The order of the keys *)

Lemma first_seen_ext (seen seen' l : list pystr) :
  (∀ k, k ∈ seen ↔ k ∈ seen') → first_seen seen l = first_seen seen' l.
Proof.
  revert seen seen'. induction l as [|k l IH]; intros seen seen' Hs; simpl;
    [done|].
  destruct (decide (k ∈ seen)) as [Hin|Hnin].
  - rewrite decide_True by by apply Hs. by apply IH.
  - rewrite decide_False by by rewrite <- Hs. f_equal. apply IH.
    intros x. rewrite !elem_of_cons, Hs. done.
Qed.

Lemma dict_keys_set_first_seen {V : Type} (d : dict V) (k : pystr) (v : V)
    (l : list pystr) :
  dict_keys (dict_set d k v) ++ first_seen (dict_keys (dict_set d k v)) l
  = dict_keys d ++ first_seen (dict_keys d) (k :: l).
Proof.
  rewrite dict_keys_set. cbn [first_seen].
  destruct (decide (k ∈ dict_keys d)) as [Hin|Hnin]; [done|].
  rewrite <- app_assoc. cbn [app]. f_equal. f_equal.
  apply first_seen_ext. intros x.
  rewrite elem_of_app, !elem_of_cons, elem_of_nil. tauto.
Qed.

Lemma form_fold_keys `{Unicode} (name_col_index : nat) (rows : list row)
    (d0 : dict pystr) :
  dict_keys (foldl (form_step name_col_index) d0 rows)
  = dict_keys d0
    ++ first_seen (dict_keys d0) (form_keys name_col_index rows).
Proof.
  revert d0. induction rows as [|r rows IH]; intros d0; simpl.
  - by rewrite app_nil_r.
  - rewrite IH. unfold form_step, form_keys. simpl.
    destruct (form_entry name_col_index r) as [[k n]|]; simpl; [|done].
    apply dict_keys_set_first_seen.
Qed.

Lemma meet_loop_keys `{Unicode} `{PyFloat} (name_cols : list nat)
    (duration_col : nat) (rows : list row) (d0 d : dict float) :
  meet_loop name_cols duration_col d0 rows = Ok d →
  dict_keys d
  = dict_keys d0
    ++ first_seen (dict_keys d0) (meet_keys name_cols duration_col rows).
Proof.
  revert d0. induction rows as [|r rows IH]; intros d0; simpl.
  - intros [= <-]. by rewrite app_nil_r.
  - unfold meet_step, meet_keys. simpl.
    destruct (meet_entry name_cols duration_col r) as [[[k h]|]|e]; simpl;
      [| |done].
    + intros Hd. rewrite (IH _ Hd). apply dict_keys_set_first_seen.
    + apply IH.
Qed.

(** X12. The keys of the two mappings stand in the order in which they
    first occur in their file: a later row of a key already there
    overwrites its value and does not move it. This is the order in which
    the matcher goes through the names, so of two names with the same
    best score the one that occurred first in the file is the match. *)
Theorem mapping_keys_in_file_order `{Unicode} `{PyFloat}
    (name_col_index : nat) (name_cols : list nat) (duration_col : nat)
    (form_rows meet_rows : list row) (d : dict float) :
  load_meet name_cols duration_col meet_rows = Ok d →
  dict_keys d = first_seen [] (meet_keys name_cols duration_col meet_rows)
  ∧ dict_keys (load_form name_col_index form_rows)
    = first_seen [] (form_keys name_col_index form_rows).
Proof.
  intros Hd. split.
  - by rewrite (meet_loop_keys _ _ _ _ _ Hd).
  - unfold load_form. by rewrite form_fold_keys.
Qed.

(** X12 at a form in which Ana Garcia signs first and last: her key
    stays first, her name as read is the last one. *)
Lemma mapping_keys_in_file_order_witness :
  load_form 2
    [[py "t1"; py "a@x.org"; py "Garcia Ana"];
     [py "t2"; py "l@x.org"; py "Lopez Luis"];
     [py "t3"; py "a@x.org"; py "GARCIA ANA."]]
  = [(py "GARCIA ANA", py "GARCIA ANA."); (py "LOPEZ LUIS", py "Lopez Luis")]
  ∧ dict_keys scenario_meet
    = first_seen [] (meet_keys [0; 1]%nat 3 meet_rows).
Proof.
  split; [by vm_compute|].
  apply (mapping_keys_in_file_order 2 [0; 1]%nat 3 form_rows meet_rows).
  by vm_compute.
Defined.

(** ** The official list *)

Lemma official_entry_fields `{Unicode} `{PyFloat} (r : row)
    (s : student float) :
  official_entry r = Some s →
  clean_head (apellidos s) ∧ clean_last (apellidos s)
  ∧ clean_head (nombres s) ∧ clean_last (nombres s)
  ∧ (apellidos s ≠ [] ∨ nombres s ≠ [])
  ∧ nombre_completo s = apellidos s ++ [SPACE] ++ nombres s
  ∧ nombre_normalizado s = normalize_name (Some (nombre_completo s)).
Proof.
  unfold official_entry. case_bool_decide; [|done].
  set (a := if truthy (r !!! 0%nat) then strip (r !!! 0%nat) else []).
  set (n := if truthy (r !!! 1%nat) then strip (r !!! 1%nat) else []).
  assert (∀ x : pystr, clean_head (if truthy x then strip x else [])
                       ∧ clean_last (if truthy x then strip x else []))
    as Hclean.
  { intros x. destruct (truthy x); [|by split; intros c].
    split; intros c; [apply strip_of_head|apply strip_of_last]. }
  destruct (truthy a || truthy n) eqn:Et; [|done].
  intros [= <-]. simpl. split_and!; try apply Hclean; try done.
  apply orb_true_iff in Et as [Et|Et]; [left|right]; intros E;
    by rewrite E in Et.
Qed.

(** X13. Every student of the store steps 1 to 4 return has surnames and
    given names without whitespace at their ends and not both empty, the
    full name made of the two with one space between, and as normalized
    name the normalization of that full name. *)
Theorem processed_student_names `{Unicode} `{PyFloat}
    (official_rows form_rows meet_rows : list row) (name_col_index : nat)
    (name_cols : list nat) (duration_col : nat) (min_required_hours : float)
    (st : store float) :
  process_attendance official_rows form_rows meet_rows name_col_index
    name_cols duration_col min_required_hours = Ok (Some st) →
  ∀ s, s ∈ official_students st →
    clean_head (apellidos s) ∧ clean_last (apellidos s)
    ∧ clean_head (nombres s) ∧ clean_last (nombres s)
    ∧ (apellidos s ≠ [] ∨ nombres s ≠ [])
    ∧ nombre_completo s = apellidos s ++ [SPACE] ++ nombres s
    ∧ nombre_normalizado s = normalize_name (Some (nombre_completo s)).
Proof.
  unfold process_attendance.
  destruct (load_meet _ _ _) as [meet|]; [|done].
  destruct (reconcile _ _) as [st'|] eqn:Hr; simpl; [|done].
  intros [= <-] s' Hs'.
  destruct (reconcile_spec _ _ _ Hr) as (_ & _ & Hlen & Hst). simpl in *.
  apply list_elem_of_lookup in Hs' as [i Hi].
  destruct (lookup_lt_is_Some_2 (load_official official_rows) i) as [s Hs].
  { rewrite <- Hlen. by eapply lookup_lt_Some. }
  destruct (Hst i s Hs) as (s'' & Hs'' & Hrs).
  assert (s'' = s') as -> by congruence.
  apply reconcile_student_frame in Hrs as (-> & -> & -> & ->).
  apply list_elem_of_lookup_2 in Hs. unfold load_official in Hs.
  apply list_elem_of_omap in Hs as (r & _ & Hr').
  by apply official_entry_fields in Hr'.
Qed.

(** X13 at the scenario. *)
Lemma processed_student_names_witness :
  ∃ st,
    process_attendance roster_rows form_rows meet_rows 2 [0; 1]%nat 3
      (Finite 4) = Ok (Some st)
    ∧ ∀ s, s ∈ official_students st →
        clean_head (apellidos s) ∧ clean_last (apellidos s)
        ∧ clean_head (nombres s) ∧ clean_last (nombres s)
        ∧ (apellidos s ≠ [] ∨ nombres s ≠ [])
        ∧ nombre_completo s = apellidos s ++ [SPACE] ++ nombres s
        ∧ nombre_normalizado s = normalize_name (Some (nombre_completo s)).
Proof.
  let r := eval vm_compute in
    (process_attendance roster_rows form_rows meet_rows 2 [0; 1]%nat 3
       (Finite 4)) in
  match r with Ok (Some ?st) => pose (st' := st) end.
  assert (process_attendance roster_rows form_rows meet_rows 2 [0; 1]%nat 3
            (Finite 4) = Ok (Some st')) as Hr by (vm_compute; reflexivity).
  exists st'. split; [exact Hr|].
  exact (processed_student_names _ _ _ _ _ _ _ _ Hr).
Defined.


(** ** The columns *)

Lemma find_name_col_spec `{Unicode} (k : nat) (header : row) :
  match find_name_col k header with
  | Some i =>
      (k ≤ i)%nat
      ∧ (∃ col, header !! (i - k)%nat = Some col
               ∧ is_form_name_header col = true)
      ∧ ∀ j col, (j < i - k)%nat → header !! j = Some col →
          is_form_name_header col = false
  | None => ∀ col, col ∈ header → is_form_name_header col = false
  end.
Proof.
  revert k. induction header as [|c rest IH]; intros k; simpl.
  - by intros col ?%elem_of_nil.
  - destruct (is_form_name_header c) eqn:Ec.
    + split; [lia|]. rewrite Nat.sub_diag. split; [by exists c|].
      intros j col Hj. lia.
    + specialize (IH (S k)). destruct (find_name_col (S k) rest) as [i|].
      * destruct IH as (Hle & (col & Hcol & His) & Hbefore).
        split; [lia|]. replace (i - k)%nat with (S (i - S k)) by lia.
        split; [by exists col|].
        intros [|j] col' Hj; simpl; [by intros [= <-]|].
        apply Hbefore. lia.
      * intros col [->|Hin]%elem_of_cons; [done|by apply IH].
Qed.

(** X14. The name column of the form is the first column whose header
    holds APELLIDO, NOMBRE or POSTULANTE in any letter case; when no
    header does, it is the third column, whether the form has one or
    not. *)
Theorem form_name_col_first `{Unicode} (header : row) :
  ((∃ col, header !! form_name_col header = Some col
          ∧ is_form_name_header col = true)
   ∧ ∀ j col, (j < form_name_col header)%nat → header !! j = Some col →
       is_form_name_header col = false)
  ∨ (form_name_col header = 2%nat
     ∧ ∀ col, col ∈ header → is_form_name_header col = false).
Proof.
  unfold form_name_col. pose proof (find_name_col_spec 0 header) as Hs.
  destruct (find_name_col 0 header) as [i|]; [left|by right].
  destruct Hs as (_ & Hcol & Hbefore). rewrite Nat.sub_0_r in *. done.
Qed.

Section MeetColumns.
Context `{UnicodeLower}.

Lemma scan_meet_header_spec (k : nat) (header : row) (name_cols : list nat)
    (duration_col : option nat) :
  ∃ added,
    (scan_meet_header k header name_cols duration_col).1 = name_cols ++ added
    ∧ StronglySorted lt added
    ∧ (∀ i, i ∈ added ↔
         (k ≤ i)%nat ∧ ∃ col, header !! (i - k)%nat = Some col
                            ∧ is_meet_name_header col = true)
    ∧ match (scan_meet_header k header name_cols duration_col).2 with
      | Some i =>
          (Some i = duration_col
           ∧ ∀ col, col ∈ header → taken_as_duration col = false)
          ∨ ((k ≤ i)%nat
             ∧ (∃ col, header !! (i - k)%nat = Some col
                      ∧ taken_as_duration col = true)
             ∧ ∀ j col, (i - k < j)%nat → header !! j = Some col →
                 taken_as_duration col = false)
      | None =>
          duration_col = None
          ∧ ∀ col, col ∈ header → taken_as_duration col = false
      end.
Proof.
  revert k name_cols duration_col.
  induction header as [|c rest IH]; intros k nc dc; cbn [scan_meet_header].
  - exists []. simpl. rewrite app_nil_r. split_and!; [done|constructor| |].
    + intros i. split; [by intros ?%elem_of_nil|].
      by intros (_ & col & Hc & _).
    + destruct dc; [left|]; (split; [done|by intros col ?%elem_of_nil]).
  - assert (∀ (i : nat) (added : list nat),
      (∀ i, i ∈ added ↔
         (S k ≤ i)%nat ∧ ∃ col, rest !! (i - S k)%nat = Some col
                              ∧ is_meet_name_header col = true) →
      (i ∈ added ↔ (k < i)%nat ∧ ∃ col, (c :: rest) !! (i - k)%nat = Some col
                              ∧ is_meet_name_header col = true)) as Hshift.
    { intros i added Ha. rewrite Ha. split.
      - intros (Hle & col & Hc & Hn). split; [lia|]. exists col.
        replace (i - k)%nat with (S (i - S k)) by lia. done.
      - intros (Hle & col & Hc & Hn). split; [lia|]. exists col.
        replace (i - k)%nat with (S (i - S k)) in Hc by lia. done. }
    assert (∀ o, match o with
      | Some i =>
          (S k ≤ i)%nat
          ∧ (∃ col, rest !! (i - S k)%nat = Some col
                   ∧ taken_as_duration col = true)
          ∧ ∀ j col, (i - S k < j)%nat → rest !! j = Some col →
              taken_as_duration col = false
      | None => False
      end →
      match o with
      | Some i =>
          (k ≤ i)%nat
          ∧ (∃ col, (c :: rest) !! (i - k)%nat = Some col
                   ∧ taken_as_duration col = true)
          ∧ ∀ j col, (i - k < j)%nat → (c :: rest) !! j = Some col →
              taken_as_duration col = false
      | None => False
      end) as Hdur.
    { intros [i|]; [|done]. intros (Hle & (col & Hc & Ht) & Hafter).
      split; [lia|]. replace (i - k)%nat with (S (i - S k)) by lia.
      split; [by exists col|].
      intros [|j] col' Hj; [lia|]. simpl. apply Hafter. lia. }
    unfold taken_as_duration in *.
    destruct (is_meet_name_header c) eqn:En.
    + destruct (IH (S k) (nc ++ [k]) dc) as (added & Hnc & Hsorted & Hin & Hd).
      exists (k :: added). rewrite Hnc, <- app_assoc. split; [done|].
      split.
      { constructor; [done|]. apply Forall_forall. intros i Hi.
        apply Hin in Hi. lia. }
      split.
      { intros i. rewrite elem_of_cons, (Hshift i added Hin). split.
        - intros [->|(Hlt & Hc)]; [|split; [lia|done]].
          split; [lia|]. exists c. by rewrite Nat.sub_diag.
        - intros (Hle & col & Hc & Hn).
          destruct (decide (i = k)) as [->|Hne]; [by left|right].
          split; [lia|by exists col]. }
      destruct (scan_meet_header (S k) rest (nc ++ [k]) dc).2 as [i|].
      * destruct Hd as [[Heq Hnone]|Hd]; [left|right].
        -- split; [done|]. intros col [->|Hc]%elem_of_cons; [|by apply Hnone].
           by rewrite En.
        -- exact (Hdur (Some i) Hd).
      * destruct Hd as [Heq Hnone]. split; [done|].
        intros col [->|Hc]%elem_of_cons; [by rewrite En|by apply Hnone].
    + destruct (is_duration_header c) eqn:Ed.
      * destruct (IH (S k) nc (Some k)) as (added & Hnc & Hsorted & Hin & Hd).
        exists added. split; [done|]. split; [done|]. split.
        { intros i. rewrite (Hshift i added Hin). split.
          - intros (Hlt & Hc); split; [lia|done].
          - intros (Hle & col & Hc & Hn).
            destruct (decide (i = k)) as [->|Hne]; [|split; [lia|by exists col]].
            rewrite Nat.sub_diag in Hc. injection Hc as <-. congruence. }
        destruct (scan_meet_header (S k) rest nc (Some k)).2 as [i|];
          [|by destruct Hd].
        right. destruct Hd as [[[= <-] Hnone]|Hd]; [|exact (Hdur (Some i) Hd)].
        split; [lia|]. rewrite Nat.sub_diag. split.
        { exists c. by rewrite En, Ed. }
        intros [|j] col Hj; [lia|]. simpl. intros Hc. apply Hnone.
        by eapply list_elem_of_lookup_2.
      * destruct (IH (S k) nc dc) as (added & Hnc & Hsorted & Hin & Hd).
        exists added. split; [done|]. split; [done|]. split.
        { intros i. rewrite (Hshift i added Hin). split.
          - intros (Hlt & Hc); split; [lia|done].
          - intros (Hle & col & Hc & Hn).
            destruct (decide (i = k)) as [->|Hne]; [|split; [lia|by exists col]].
            rewrite Nat.sub_diag in Hc. injection Hc as <-. congruence. }
        destruct (scan_meet_header (S k) rest nc dc).2 as [i|].
        -- destruct Hd as [[Heq Hnone]|Hd]; [left|right].
           ++ split; [done|].
              intros col [->|Hc]%elem_of_cons; [|by apply Hnone].
              by rewrite En, Ed.
           ++ exact (Hdur (Some i) Hd).
        -- destruct Hd as [Heq Hnone]. split; [done|].
           intros col [->|Hc]%elem_of_cons; [by rewrite En, Ed|by apply Hnone].
Qed.

(** X15. The name columns of the Meet log are never an empty list, so
    [max(name_cols)] never fails. They are, in increasing order, the
    columns whose header holds [apellido] or [nombre] in any letter case,
    or the first two columns when there is none. The duration column is
    the last column whose header holds [duraci] or [duration] and is not
    a name column, or the fourth column when there is none; a detected
    duration column is never one of the detected name columns. *)
Theorem meet_columns_found (header : row) :
  (meet_columns header).1 ≠ []
  ∧ StronglySorted lt (meet_columns header).1
  ∧ (((meet_columns header).1 = [0; 1]%nat
      ∧ ∀ col, col ∈ header → is_meet_name_header col = false)
     ∨ ∀ i, i ∈ (meet_columns header).1 ↔
         ∃ col, header !! i = Some col ∧ is_meet_name_header col = true)
  ∧ (((meet_columns header).2 = 3%nat
      ∧ ∀ col, col ∈ header → taken_as_duration col = false)
     ∨ (∃ col, header !! (meet_columns header).2 = Some col
              ∧ taken_as_duration col = true)
       ∧ (∀ j col, ((meet_columns header).2 < j)%nat →
            header !! j = Some col → taken_as_duration col = false)
       ∧ ((∃ col, col ∈ header ∧ is_meet_name_header col = true) →
          (meet_columns header).2 ∉ (meet_columns header).1)).
Proof.
  unfold meet_columns.
  destruct (scan_meet_header_spec 0 header [] None)
    as (added & Hnc & Hsorted & Hin & Hd).
  destruct (scan_meet_header 0 header [] None) as [nc dc]. simpl in *.
  subst nc.
  assert (∀ i, i ∈ added ↔
            ∃ col, header !! i = Some col ∧ is_meet_name_header col = true)
    as Hin'.
  { intros i. rewrite Hin, Nat.sub_0_r. split; [by intros [_ ?]|].
    intros ?. split; [lia|done]. }
  split_and!.
  - by destruct added.
  - destruct added; [|done]. repeat constructor.
  - destruct added as [|a added']; [left|by right]. split; [done|].
    intros col [i Hi]%list_elem_of_lookup_1.
    destruct (is_meet_name_header col) eqn:En; [|done].
    exfalso. eapply elem_of_nil, Hin'. eauto.
  - destruct dc as [i|].
    + right. destruct Hd as [[[=] _]|(_ & Hcol & Hafter)].
      rewrite Nat.sub_0_r in *. split_and!; [done|done|].
      intros (col' & Hcol' & Hn').
      destruct added as [|a added'].
      { exfalso. apply list_elem_of_lookup_1 in Hcol' as [j Hj].
        eapply elem_of_nil, Hin'. eauto. }
      intros (col'' & Hc'' & Hn'')%Hin'.
      destruct Hcol as (col & Hc & Ht). unfold taken_as_duration in Ht.
      assert (col'' = col) as -> by congruence.
      by rewrite Hn'' in Ht.
    + left. by destruct Hd.
Qed.
End MeetColumns.


(** ** The attendance file and the summary *)

(** X16. When the run reaches step 5, the attendance file has the title
    row and then one row per student of the official list, in the order
    of the list: the surnames and given names as read (stripped) and the
    mark, which is [A] or [F]. *)
Theorem attendance_file_rows `{Unicode} `{UnicodeLower} `{PyFloat}
    (official_file form_file meet_file : list row)
    (min_required_hours : float) (st : store float) (file : list row) :
  process_attendance_files official_file form_file meet_file
    min_required_hours = Ok (Some (st, file)) →
  head file = Some [py "APELLIDOS"; py "NOMBRES"; py "ASISTENCIA"]
  ∧ length file = S (length (load_official (tail official_file)))
  ∧ ∀ i s, load_official (tail official_file) !! i = Some s →
      ∃ mark, file !! S i = Some [apellidos s; nombres s; mark]
        ∧ (mark = py "A" ∨ mark = py "F").
Proof.
  unfold process_attendance_files.
  destruct official_file as [|oh official_rows]; [done|].
  destruct form_file as [|fh form_rows]; [done|].
  destruct meet_file as [|mh meet_rows]; [done|].
  destruct (meet_columns mh) as [name_cols duration_col].
  unfold process_attendance.
  destruct (load_meet _ _ _) as [meet|]; [|done].
  destruct (reconcile _ _) as [st'|] eqn:Hr; simpl; [|done].
  intros [= <- <-].
  destruct (reconcile_spec _ _ _ Hr) as (_ & _ & Hlen & Hst). simpl in *.
  split; [done|]. split; [by rewrite length_fmap, Hlen|].
  intros i s Hs. destruct (Hst i s Hs) as (s' & Hs' & Hrs).
  exists (asistencia s'). rewrite list_lookup_fmap, Hs'. simpl.
  pose proof (reconcile_student_frame _ _ _ _ _ Hrs) as (-> & -> & _).
  split; [done|].
  apply reconcile_student_decision in Hrs.
  - rewrite Hrs. destruct (_ && _); auto.
  - eapply load_official_initial, list_elem_of_lookup_2, Hs.
Qed.

(** X16 at the scenario, the three files with their title rows. *)
Lemma attendance_file_rows_witness :
  ∃ st,
    process_attendance_files
      ([py "APELLIDOS"; py "NOMBRES"] :: roster_rows)
      ([py "Marca temporal"; py "Correo"; py "Nombre completo"] :: form_rows)
      ([py "Nombre"; py "Apellido"; py "Correo";
        py "Duraci" ++ [243] ++ py "n"] :: meet_rows)
      (Finite 4)
    = Ok (Some (st,
                [[py "APELLIDOS"; py "NOMBRES"; py "ASISTENCIA"];
                 [py "GARCIA"; py "ANA"; py "A"];
                 [py "LOPEZ"; py "LUIS"; py "F"];
                 [py "PEREZ"; py "EVA"; py "F"]]))
    ∧ length [[py "APELLIDOS"; py "NOMBRES"; py "ASISTENCIA"];
              [py "GARCIA"; py "ANA"; py "A"];
              [py "LOPEZ"; py "LUIS"; py "F"];
              [py "PEREZ"; py "EVA"; py "F"]]
      = S (length (load_official roster_rows)).
Proof.
  let r := eval vm_compute in
    (process_attendance roster_rows form_rows meet_rows 2 [0; 1]%nat 3
       (Finite 4)) in
  match r with Ok (Some ?st) => pose (st' := st) end.
  exists st'.
  match goal with
  | |- ?P ∧ _ => assert P as Hr by (vm_compute; reflexivity)
  end.
  split; [exact Hr|].
  pose proof (attendance_file_rows (H := latin1_text)
                (H0 := latin1_lower_text) (H1 := exact_float)
                _ _ _ (Finite 4) st' _ Hr) as (_ & Hlen & _).
  exact Hlen.
Defined.

Lemma summary_ok {fl : Type} (students : list (student fl))
    (total present absent : nat) :
  summary students = Ok (total, present, absent) →
  total = length students
  ∧ present
    = length (List.filter (λ s, bool_decide (asistencia s = py "A")) students)
  ∧ (present + absent = total)%nat.
Proof.
  unfold summary.
  pose proof (filter_length_le
    (λ s : student fl, bool_decide (asistencia s = py "A")) students) as Hle.
  destruct (length students) as [|n] eqn:En; [done|].
  intros [= <- <- <-]. split_and!; [done|done|lia].
Qed.

(** X17. After steps 1 to 4, the summary counts as present exactly the
    students who are registered in the form and whose hours reach the
    minimum, and as total the students of the official list; present and
    absent add up to the total. *)
Theorem summary_figures `{Unicode} `{PyFloat}
    (official_rows form_rows meet_rows : list row) (name_col_index : nat)
    (name_cols : list nat) (duration_col : nat) (min_required_hours : float)
    (st : store float) (total present absent : nat) :
  process_attendance official_rows form_rows meet_rows name_col_index
    name_cols duration_col min_required_hours = Ok (Some st) →
  summary (official_students st) = Ok (total, present, absent) →
  total = length (load_official official_rows)
  ∧ present
    = length (List.filter
        (λ s, en_formulario s && fge (horas_meet s) min_required_hours)
        (official_students st))
  ∧ (present + absent = total)%nat.
Proof.
  unfold process_attendance.
  destruct (load_meet _ _ _) as [meet|]; [|done].
  destruct (reconcile _ _) as [st'|] eqn:Hr; simpl; [|done].
  intros [= <-] Hsum.
  destruct (summary_ok _ _ _ _ Hsum) as (-> & -> & Hadd).
  destruct (reconcile_spec _ _ _ Hr) as (_ & _ & Hlen & Hst). simpl in *.
  split_and!; try done.
  f_equal. apply filter_ext_in. intros s' Hs'%list_elem_of_In.
  apply list_elem_of_lookup in Hs' as [i Hi].
  destruct (lookup_lt_is_Some_2 (load_official official_rows) i) as [s Hs].
  { rewrite <- Hlen. by eapply lookup_lt_Some. }
  destruct (Hst i s Hs) as (s'' & Hs'' & Hrs).
  assert (s'' = s') as -> by congruence.
  apply reconcile_student_decision in Hrs.
  - rewrite Hrs. by destruct (_ && _).
  - eapply load_official_initial, list_elem_of_lookup_2, Hs.
Qed.

(** X17 at the scenario: three students, one present. *)
Lemma summary_figures_witness :
  ∃ st,
    process_attendance roster_rows form_rows meet_rows 2 [0; 1]%nat 3
      (Finite 4) = Ok (Some st)
    ∧ summary (official_students st) = Ok (3, 1, 2)%nat
    ∧ 1%nat
      = length (List.filter (λ s, en_formulario s && fge (horas_meet s) (Finite 4))
                  (official_students st)).
Proof.
  let r := eval vm_compute in
    (process_attendance roster_rows form_rows meet_rows 2 [0; 1]%nat 3
       (Finite 4)) in
  match r with Ok (Some ?st) => pose (st' := st) end.
  assert (process_attendance roster_rows form_rows meet_rows 2 [0; 1]%nat 3
            (Finite 4) = Ok (Some st')) as Hr by (vm_compute; reflexivity).
  assert (summary (official_students st') = Ok (3, 1, 2)%nat) as Hs
    by (vm_compute; reflexivity).
  exists st'. split; [exact Hr|]. split; [exact Hs|].
  pose proof (summary_figures (H := latin1_text) (H0 := exact_float)
                roster_rows form_rows meet_rows 2 [0; 1]%nat 3 (Finite 4)
                st' _ _ _ Hr Hs) as (_ & Hpresent & _).
  exact Hpresent.
Defined.

(** X18. An official list without a student (no row of two cells with
    a name) does not stop the run early: whenever the three files have
    their header rows and no row of the Meet log raises, the run reaches
    step 5 and writes the attendance file with its title row alone, and
    the summary then raises [ZeroDivisionError]. The summary raises on no
    other list, and raises nothing else. *)
Theorem empty_official_list `{Unicode} `{UnicodeLower} `{PyFloat}
    (official_header form_header meet_header : row)
    (official_rows form_rows meet_rows : list row)
    (min_required_hours : float) :
  load_official official_rows = [] →
  (∀ r, r ∈ meet_rows →
     meet_entry (meet_columns meet_header).1 (meet_columns meet_header).2 r
     ≠ Raise ValueError) →
  (∃ st,
     process_attendance_files (official_header :: official_rows)
       (form_header :: form_rows) (meet_header :: meet_rows)
       min_required_hours
     = Ok (Some (st, [[py "APELLIDOS"; py "NOMBRES"; py "ASISTENCIA"]]))
     ∧ official_students st = []
     ∧ summary (official_students st) = Raise ZeroDivisionError)
  ∧ (∀ (students : list (student float)) (e : exn),
       summary students = Raise e → e = ZeroDivisionError ∧ students = []).
Proof.
  intros Hempty Hmeet. split.
  - unfold process_attendance_files.
    destruct (meet_columns meet_header) as [name_cols duration_col].
    simpl in Hmeet.
    unfold process_attendance, load_meet. rewrite Hempty.
    destruct (meet_loop_raises name_cols duration_col meet_rows [])
      as [(d' & -> & _)|(_ & r & Hr & Hraise)].
    + eexists. split; [reflexivity|]. by split.
    + by destruct (Hmeet r Hr).
  - intros students e. unfold summary.
    destruct (length students) eqn:En; [|done].
    intros [= <-]. split; [done|]. by apply nil_length_inv.
Qed.

(** X18 at the form and the Meet log of the scenario, with an official
    list whose only row has one cell. *)
Lemma empty_official_list_witness :
  ∃ st,
    process_attendance_files
      [[py "APELLIDOS"; py "NOMBRES"]; [py "GARCIA ANA"]]
      ([py "Marca temporal"; py "Correo"; py "Nombre"] :: form_rows)
      ([py "Nombre"; py "Apellido"; py "Correo"; py "Duracion"] :: meet_rows)
      (Finite 4)
    = Ok (Some (st, [[py "APELLIDOS"; py "NOMBRES"; py "ASISTENCIA"]]))
    ∧ official_students st = []
    ∧ summary (official_students st) = Raise ZeroDivisionError.
Proof.
  refine (proj1 (empty_official_list (H := latin1_text)
                   (H0 := latin1_lower_text) (H1 := exact_float)
                   [py "APELLIDOS"; py "NOMBRES"]
                   [py "Marca temporal"; py "Correo"; py "Nombre"]
                   [py "Nombre"; py "Apellido"; py "Correo"; py "Duracion"]
                   [[py "GARCIA ANA"]] form_rows meet_rows (Finite 4)
                   eq_refl _)).
  intros r Hr.
  repeat (apply elem_of_cons in Hr as [->|Hr]; [by vm_compute|]).
  by apply elem_of_nil in Hr.
Defined.
